(** * Capybara API: the request handlers of [app.js], embedded and verified

    The repository ships two variants of the same five-route CRUD service:
    - the in-memory variant ([src/app.js]), whose store is the module-level
      array [capybaras];
    - the relational variant ([src/unnamed/part_000]), whose store is a
      PostgreSQL table reached through [pool.query].

    Both are embedded below, handler by handler.  The in-memory handlers run
    in a small state monad over the array that also records every access to
    it; the relational handlers are trees whose nodes are the awaited
    queries, so that they can be run against any database. *)

From Stdlib Require Import ZArith String Ascii List Lia Sorted.
From Stdlib Require Import Floats.SpecFloat.
From stdpp Require Import gmap strings list.

Set Warnings "-register-all".

Local Open Scope Z_scope.

(** ** JavaScript values *)

(** What [express.json()] can put in a request body, plus [undefined] (the
    value of a missing property).  Numbers are IEEE 754 doubles, objects are
    finite maps from property names to values. *)
Inductive JsVal : Type :=
  | JUndefined
  | JNull
  | JBool (b : bool)
  | JNum (x : spec_float)
  | JStr (s : string)
  | JArr (items : list JsVal)
  | JObj (props : gmap string JsVal).

(** The operator [!v]: [true] exactly on the falsy values [undefined],
    [null], [false], [+0], [-0], [NaN] and the empty string. *)
Definition js_not (v : JsVal) : bool :=
  match v with
  | JUndefined | JNull => true
  | JBool b => negb b
  | JNum (S754_zero _) | JNum S754_nan => true
  | JNum _ => false
  | JStr s => if decide (s = ""%string) then true else false
  | JArr _ | JObj _ => false
  end.

(** The parsed body that [express.json()] leaves in [req.body]: a JSON
    object or a JSON array (the parser accepts nothing else at top level,
    and a request without a body gets the empty object). *)
Inductive Body : Type :=
  | BObject (props : gmap string JsVal)
  | BArray (items : list JsVal).

(** The destructuring [const { name } = req.body]: the property of an
    object, [undefined] when it has none; an array has no property of that
    name. *)
Definition body_name (req_body : Body) : JsVal :=
  match req_body with
  | BObject props => default JUndefined (props !! "name"%string)
  | BArray _ => JUndefined
  end.

(** ** [parseInt] *)

(** Strings are sequences of code units below 256.  The white space that
    [parseInt] skips is, in that range: TAB, LF, VT, FF, CR, SP and NBSP. *)
Definition is_white_space (c : ascii) : bool :=
  let n := Z.of_N (N_of_ascii c) in
  (n =? 9) || (n =? 10) || (n =? 11) || (n =? 12) || (n =? 13)
  || (n =? 32) || (n =? 160).

Fixpoint trim_start (s : string) : string :=
  match s with
  | String c rest => if is_white_space c then trim_start rest else s
  | EmptyString => s
  end.

(** Value of a character as a digit: [0-9] are 0..9, [a-z] and [A-Z] are
    10..35. *)
Definition digit_value (c : ascii) : option Z :=
  let n := Z.of_N (N_of_ascii c) in
  if (48 <=? n) && (n <=? 57) then Some (n - 48)
  else if (97 <=? n) && (n <=? 122) then Some (n - 87)
  else if (65 <=? n) && (n <=? 90) then Some (n - 55)
  else None.

(** The longest prefix of radix-[R] digits, read as a number; [acc] is
    [None] until a first digit has been read. *)
Fixpoint parse_digits (R : Z) (s : string) (acc : option Z) : option Z :=
  match s with
  | String c rest =>
      match digit_value c with
      | Some d =>
          if d <? R then parse_digits R rest (Some (default 0 acc * R + d))
          else acc
      | None => acc
      end
  | EmptyString => acc
  end.

(** [parseInt(s)] with no radix argument: skip white space, read a sign,
    read an optional [0x]/[0X] prefix (radix 16, else radix 10), read the
    digits.  [None] is [NaN].  The result is the exact integer; JavaScript
    rounds it to a double, which changes no comparison with an id of the
    store (ids are array lengths plus one, far below [2^53]). *)
Definition parseInt (s : string) : option Z :=
  let s1 := trim_start s in
  let '(sign, s2) :=
    match s1 with
    | String "-"%char rest => (-1, rest)
    | String "+"%char rest => (1, rest)
    | _ => (1, s1)
    end in
  let '(R, s3) :=
    match s2 with
    | String "0"%char (String "x"%char rest) => (16, rest)
    | String "0"%char (String "X"%char rest) => (16, rest)
    | _ => (10, s2)
    end in
  match parse_digits R s3 None with
  | Some m => Some (sign * m)
  | None => None
  end.

(** ** The entity and the HTTP responses *)

Record Capybara := { id : Z; name : JsVal }.

(** Response bodies: [res.json(array)], [res.json(object)],
    [res.json(undefined)], [{ message }], [{ error }] and the empty body of
    [res.send()]. *)
Inductive Payload : Type :=
  | NoBody
  | JsonList (cs : list Capybara)
  | JsonCapybara (c : Capybara)
  | JsonUndefined
  | JsonMessage (message : string)
  | JsonError (error : string).

Record Response := { status : Z; payload : Payload }.

(** [res.status(code).json(p)]; a bare [res.json(p)] has status 200. *)
Definition res_status_json (code : Z) (p : Payload) : Response :=
  {| status := code; payload := p |}.
Definition res_json (p : Payload) : Response := res_status_json 200 p.
Definition res_status_send (code : Z) : Response :=
  {| status := code; payload := NoBody |}.

(** A request: the route, the [:id] path parameter and the parsed body. *)
Inductive Request : Type :=
  | GET_capybaras
  | GET_capybaras_id (req_params_id : string)
  | POST_capybaras (req_body : Body)
  | PUT_capybaras_id (req_params_id : string) (req_body : Body)
  | DELETE_capybaras_id (req_params_id : string).

(** ** The in-memory variant ([src/app.js]) *)

Module InMemory.

(** Every access of a handler to the array [capybaras]. *)
Inductive StoreOp : Type :=
  | OpRead
  | OpFind (n : option Z)
  | OpFindIndex (n : option Z)
  | OpLength
  | OpPush (c : Capybara)
  | OpSplice (index : nat)
  | OpSetName (index : nat) (v : JsVal).

(** A handler step: from the array to a result, the array afterwards and the
    accesses made. *)
Definition M (A : Type) : Type :=
  list Capybara → A * list Capybara * list StoreOp.

#[global] Instance M_ret : MRet M := λ A a s, (a, s, []).
#[global] Instance M_bind : MBind M := λ A B k m s,
  let '(a, s1, t1) := m s in
  let '(b, s2, t2) := k a s1 in
  (b, s2, t1 ++ t2).

(** The predicate [c => c.id === n]; [NaN] (here [None]) equals no id. *)
Definition id_is (n : option Z) (c : Capybara) : Prop := Some (id c) = n.

#[global] Instance id_is_dec n c : Decision (id_is n c).
Proof. unfold id_is. apply _. Defined.

(** [capybaras] read as a whole. *)
Definition read : M (list Capybara) := λ s, (s, s, [OpRead]).

(** [capybaras.find(c => c.id === n)]: the first match, as a reference into
    the array (its index) together with the object found. *)
Definition find (n : option Z) : M (option (nat * Capybara)) :=
  λ s, (list_find (id_is n) s, s, [OpFind n]).

(** [capybaras.findIndex(c => c.id === n)]; [None] is [-1]. *)
Definition findIndex (n : option Z) : M (option nat) :=
  λ s, (fst <$> list_find (id_is n) s, s, [OpFindIndex n]).

(** [capybaras.length] *)
Definition length : M Z := λ s, (Z.of_nat (List.length s), s, [OpLength]).

(** [capybaras.push(c)] *)
Definition push (c : Capybara) : M unit := λ s, (tt, s ++ [c], [OpPush c]).

(** [capybaras.splice(index, 1)] *)
Definition splice (index : nat) : M unit :=
  λ s, (tt, delete index s, [OpSplice index]).

(** [capybara.name = v] on the object found at [index]: the object is shared
    with the array, so the array sees the new name. *)
Definition set_name (index : nat) (v : JsVal) : M unit :=
  λ s, (tt, alter (λ c, {| id := id c; name := v |}) index s,
        [OpSetName index v]).

Definition not_found : Response :=
  res_status_json 404 (JsonMessage "Capybara not found").
Definition name_required : Response :=
  res_status_json 400 (JsonMessage "Name is required").

(** [app.get('/capybaras', ...)] *)
Definition get_capybaras : M Response :=
  capybaras ← read;
  mret (res_json (JsonList capybaras)).

(** [app.get('/capybaras/:id', ...)] *)
Definition get_capybaras_id (req_params_id : string) : M Response :=
  capybara ← find (parseInt req_params_id);
  match capybara with
  | None => mret not_found
  | Some (_, c) => mret (res_json (JsonCapybara c))
  end.

(** [app.post('/capybaras', ...)] *)
Definition post_capybaras (req_body : Body) : M Response :=
  let name := body_name req_body in
  if js_not name then mret name_required
  else
    n ← length;
    let capybara := {| id := n + 1; name := name |} in
    push capybara;;
    mret (res_status_json 201 (JsonCapybara capybara)).

(** [app.put('/capybaras/:id', ...)] *)
Definition put_capybaras_id (req_params_id : string) (req_body : Body)
  : M Response :=
  capybara ← find (parseInt req_params_id);
  match capybara with
  | None => mret not_found
  | Some (index, c) =>
      let name := body_name req_body in
      if js_not name then mret name_required
      else
        set_name index name;;
        mret (res_json (JsonCapybara {| id := id c; name := name |}))
  end.

(** [app.delete('/capybaras/:id', ...)] *)
Definition delete_capybaras_id (req_params_id : string) : M Response :=
  index ← findIndex (parseInt req_params_id);
  match index with
  | None => mret not_found
  | Some i =>
      splice i;;
      mret (res_status_send 204)
  end.

(** The router. *)
Definition handle (req : Request) : M Response :=
  match req with
  | GET_capybaras => get_capybaras
  | GET_capybaras_id i => get_capybaras_id i
  | POST_capybaras b => post_capybaras b
  | PUT_capybaras_id i b => put_capybaras_id i b
  | DELETE_capybaras_id i => delete_capybaras_id i
  end.

(** The three components of a run. *)
Definition response {A} (r : A * list Capybara * list StoreOp) : A := r.1.1.
Definition store_after {A} (r : A * list Capybara * list StoreOp)
  : list Capybara := r.1.2.
Definition trace {A} (r : A * list Capybara * list StoreOp)
  : list StoreOp := r.2.

(** The array after a sequence of requests, served one after the other. *)
Definition serve (reqs : list Request) (s : list Capybara) : list Capybara :=
  foldl (λ st req, store_after (handle req st)) s reqs.

(** The stored collections of a session: the array starts empty
    ([let capybaras = []]) and changes only through the handlers. *)
Inductive reachable : list Capybara → Prop :=
  | reachable_init : reachable []
  | reachable_step s req :
      reachable s → reachable (store_after (handle req s)).

End InMemory.

(** ** The relational variant ([src/unnamed/part_000]) *)

Module Relational.

(** A query parameter: a value taken from the body, or the number that
    [parseInt] made of the path parameter ([None] is [NaN]). *)
Inductive Param : Type :=
  | PVal (v : JsVal)
  | PNumber (n : option Z).

(** How an awaited [pool.query] settles: with [result.rows], or rejected
    with an error whose [message] is given. *)
Inductive QueryResult : Type :=
  | Resolved (rows : list Capybara)
  | Rejected (message : string).

(** An [async] handler: it either responds, or awaits one query and goes on
    with what the database answered. *)
Inductive Handler : Type :=
  | Respond (r : Response)
  | Await (text : string) (params : list Param) (k : QueryResult → Handler).

Definition not_found : Response :=
  res_status_json 404 (JsonMessage "Capybara not found").
Definition name_required : Response :=
  res_status_json 400 (JsonMessage "Name is required").

(** The [catch (err)] clause shared by the five handlers. *)
Definition storage_error (message : string) : Response :=
  res_status_json 500 (JsonError message).

(** [res.json(result.rows[0])] with the given status. *)
Definition json_first_row (code : Z) (rows : list Capybara) : Response :=
  match rows with
  | c :: _ => res_status_json code (JsonCapybara c)
  | [] => res_status_json code JsonUndefined
  end.

(** [app.get('/capybaras', ...)] *)
Definition get_capybaras : Handler :=
  Await "SELECT * FROM capybara ORDER BY id" [] (λ result,
    match result with
    | Resolved rows => Respond (res_json (JsonList rows))
    | Rejected message => Respond (storage_error message)
    end).

(** [app.get('/capybaras/:id', ...)] *)
Definition get_capybaras_id (req_params_id : string) : Handler :=
  Await "SELECT * FROM capybara WHERE id = $1"
    [PNumber (parseInt req_params_id)] (λ result,
    match result with
    | Resolved [] => Respond not_found
    | Resolved rows => Respond (json_first_row 200 rows)
    | Rejected message => Respond (storage_error message)
    end).

(** [app.post('/capybaras', ...)] *)
Definition post_capybaras (req_body : Body) : Handler :=
  let name := body_name req_body in
  if js_not name then Respond name_required
  else
    Await "INSERT INTO capybara (name) VALUES ($1) RETURNING *"
      [PVal name] (λ result,
      match result with
      | Resolved rows => Respond (json_first_row 201 rows)
      | Rejected message => Respond (storage_error message)
      end).

(** [app.put('/capybaras/:id', ...)] *)
Definition put_capybaras_id (req_params_id : string) (req_body : Body)
  : Handler :=
  let name := body_name req_body in
  if js_not name then Respond name_required
  else
    Await "UPDATE capybara SET name = $1 WHERE id = $2 RETURNING *"
      [PVal name; PNumber (parseInt req_params_id)] (λ result,
      match result with
      | Resolved [] => Respond not_found
      | Resolved rows => Respond (json_first_row 200 rows)
      | Rejected message => Respond (storage_error message)
      end).

(** [app.delete('/capybaras/:id', ...)] *)
Definition delete_capybaras_id (req_params_id : string) : Handler :=
  Await "DELETE FROM capybara WHERE id = $1 RETURNING *"
    [PNumber (parseInt req_params_id)] (λ result,
    match result with
    | Resolved [] => Respond not_found
    | Resolved _ => Respond (res_status_send 204)
    | Rejected message => Respond (storage_error message)
    end).

(** The router. *)
Definition handle (req : Request) : Handler :=
  match req with
  | GET_capybaras => get_capybaras
  | GET_capybaras_id i => get_capybaras_id i
  | POST_capybaras b => post_capybaras b
  | PUT_capybaras_id i b => put_capybaras_id i b
  | DELETE_capybaras_id i => delete_capybaras_id i
  end.

(** Running a handler against a database: [exec] is what the database does
    with one statement.  The result is the response, the database afterwards
    and the statements that were sent. *)
Section Run.
Context {Db : Type}.
Variable exec : Db → string → list Param → QueryResult * Db.

Fixpoint run (h : Handler) (db : Db)
  : Response * Db * list (string * list Param) :=
  match h with
  | Respond r => (r, db, [])
  | Await text params k =>
      let '(result, db1) := exec db text params in
      let '(r, db2, sent) := run (k result) db1 in
      (r, db2, (text, params) :: sent)
  end.
End Run.

End Relational.

(** ** Configuration and the migration script ([src/unnamed/part_001]) *)

Module Migrate.

(** [process.env.KEY || fallback]: the value of the variable when it is set
    and not the empty string, the fallback otherwise.  [env] is
    [process.env]: the variables that are set, with their values. *)
Definition env_or (env : gmap string string) (key fallback : string)
  : string :=
  match env !! key with
  | Some v => if decide (v = ""%string) then fallback else v
  | None => fallback
  end.

(** [process.env.POSTGRES_PORT ? parseInt(process.env.POSTGRES_PORT) : 5432];
    [None] is [NaN]. *)
Definition env_port (env : gmap string string) : option Z :=
  match env !! "POSTGRES_PORT"%string with
  | Some v => if decide (v = ""%string) then Some 5432 else parseInt v
  | None => Some 5432
  end.

Record DbConfig := {
  host : string;
  user : string;
  password : string;
  database : string;
  port : option Z
}.

(** [getDbConfig(database = 'capybaradb')]; the argument is [None] when the
    function is called without one. *)
Definition getDbConfig (env : gmap string string) (database : option string)
  : DbConfig :=
  let database := default "capybaradb"%string database in
  {| host := env_or env "POSTGRES_SERVICE_HOST" "localhost";
     user := env_or env "POSTGRES_USER" "postgres";
     password := env_or env "POSTGRES_PASSWORD" "postgres";
     database := database;
     port := env_port env |}.

(** What the script does to the outside: the calls on a client (a client is
    told apart by the configuration it was made with), the read of the
    migration file, and the two console calls. *)
Inductive Op : Type :=
  | Connect (client : DbConfig)
  | Query (client : DbConfig) (sql : string)
  | End_ (client : DbConfig)
  | ReadFileSync (path encoding : string)
  | ConsoleLog (message : string)
  | ConsoleError (message err : string).

(** How a call ends: with a value (the content of the file, for a read), or
    with an error, thrown or delivered by a rejected promise. *)
Inductive Outcome : Type :=
  | Fulfilled (value : string)
  | Failed (err : string).

(** A piece of the script: it returns, throws (an [async] function then
    rejects), ends the process with [process.exit], or makes a call and goes
    on with its outcome. *)
Inductive Proc (A : Type) : Type :=
  | Return (a : A)
  | Throw (err : string)
  | Exit (code : Z)
  | Do (op : Op) (k : Outcome → Proc A).
Arguments Return {A} a.
Arguments Throw {A} err.
Arguments Exit {A} code.
Arguments Do {A} op k.

Fixpoint bind {A B : Type} (p : Proc A) (f : A → Proc B) : Proc B :=
  match p with
  | Return a => f a
  | Throw err => Throw err
  | Exit code => Exit code
  | Do op k => Do op (λ o, bind (k o) f)
  end.

#[global] Instance Proc_ret : MRet Proc := λ A a, Return a.
#[global] Instance Proc_bind : MBind Proc := λ A B f p, bind p f.

(** [try { p } catch (err) { handler }] *)
Fixpoint try_catch {A : Type} (p : Proc A) (handler : string → Proc A)
  : Proc A :=
  match p with
  | Return a => Return a
  | Throw err => handler err
  | Exit code => Exit code
  | Do op k => Do op (λ o, try_catch (k o) handler)
  end.

(** [try { p } finally { finalizer }]: the finalizer runs when [p] returns
    or throws, and [p]'s completion stands unless the finalizer throws; it
    does not run after [process.exit], which does not return. *)
Fixpoint try_finally {A : Type} (p : Proc A) (finalizer : Proc unit)
  : Proc A :=
  match p with
  | Return a => bind finalizer (λ _, Return a)
  | Throw err => bind finalizer (λ _, Throw err)
  | Exit code => Exit code
  | Do op k => Do op (λ o, try_finally (k o) finalizer)
  end.

(** A call that can fail: [await client.connect()], [await client.query(sql)],
    [await client.end()], [fs.readFileSync(path, encoding)]. *)
Definition call (op : Op) : Proc string :=
  Do op (λ o, match o with
              | Fulfilled value => Return value
              | Failed err => Throw err
              end).

(** [console.log(message)] and [console.error(message, err)] *)
Definition console_log (message : string) : Proc unit :=
  Do (ConsoleLog message) (λ _, Return tt).
Definition console_error (message err : string) : Proc unit :=
  Do (ConsoleError message err) (λ _, Return tt).

(** [process.exit(code)] *)
Definition process_exit {A : Type} (code : Z) : Proc A := Exit code.

(** [async function createdb()] *)
Definition createdb (env : gmap string string) : Proc unit :=
  let adminClient := getDbConfig env (Some "postgres"%string) in
  try_finally
    (try_catch
       (call (Connect adminClient);;
        call (Query adminClient
          "CREATE DATABASE capybaradb WITH ENCODING 'UTF8' TEMPLATE template0");;
        console_log "Database capybaradb created successfully.")
       (λ err,
          console_error "Error creating database:" err;;
          process_exit 1))
    (call (End_ adminClient);; mret tt).

(** [async function migrate()] *)
Definition migrate (env : gmap string string) : Proc unit :=
  let dbClient := getDbConfig env (Some "capybaradb"%string) in
  try_finally
    (try_catch
       (call (Connect dbClient);;
        sql ← call (ReadFileSync "capybara.sql" "utf8");
        call (Query dbClient sql);;
        console_log "Migration completed successfully.")
       (λ err,
          console_error "Migration failed:" err;;
          process_exit 1))
    (call (End_ dbClient);; mret tt).

(** [async function main()] *)
Definition main (env : gmap string string) : Proc unit :=
  createdb env;;
  migrate env.

(** How a run of the script ends: [main] returned, the process was ended by
    [process.exit], or the promise of [main] was rejected (nothing handles
    it). *)
Inductive Completion : Type :=
  | Completed
  | Exited (code : Z)
  | Rejected (err : string).

(** Running a piece of the script in a world that decides the outcome of
    each call.  The result is how the run ends, and the calls made with
    their outcomes, in order. *)
Section Run.
Context {W : Type}.
Variable world : W → Op → Outcome * W.

Fixpoint run {A : Type} (p : Proc A) (w : W)
  : Completion * list (Op * Outcome) :=
  match p with
  | Return _ => (Completed, [])
  | Throw err => (Rejected err, [])
  | Exit code => (Exited code, [])
  | Do op k =>
      let '(o, w1) := world w op in
      let '(c, calls) := run (k o) w1 in
      (c, (op, o) :: calls)
  end.
End Run.

End Migrate.

(** The configuration of the pool of the relational variant
    ([src/unnamed/part_000], [new Pool({...})]). *)
Definition pool_config (env : gmap string string) : Migrate.DbConfig :=
  {| Migrate.host := Migrate.env_or env "POSTGRES_SERVICE_HOST" "localhost";
     Migrate.user := Migrate.env_or env "POSTGRES_USER" "postgres";
     Migrate.password := Migrate.env_or env "POSTGRES_PASSWORD" "postgres";
     Migrate.database := "capybaradb";
     Migrate.port := Migrate.env_port env |}.

(** A world in which every call succeeds and the migration file holds
    [content]. *)
Definition world_all_ok (content : string) (w : unit) (op : Migrate.Op)
  : Migrate.Outcome * unit :=
  match op with
  | Migrate.ReadFileSync _ _ => (Migrate.Fulfilled content, w)
  | _ => (Migrate.Fulfilled "", w)
  end.

(** A world in which the database [capybaradb] exists already: the
    [CREATE DATABASE] statement is rejected, every other call succeeds. *)
Definition world_database_exists (w : unit) (op : Migrate.Op)
  : Migrate.Outcome * unit :=
  match op with
  | Migrate.Query client sql =>
      if decide (Migrate.database client = "postgres"%string)
      then (Migrate.Failed "database capybaradb already exists", w)
      else (Migrate.Fulfilled "", w)
  | _ => (Migrate.Fulfilled "", w)
  end.

(** The calls made inside a [try] block of the script: a failure of one of
    them is caught by the [catch] clause. *)
Definition in_try_block (op : Migrate.Op) : bool :=
  match op with
  | Migrate.Connect _ | Migrate.Query _ _ | Migrate.ReadFileSync _ _ => true
  | _ => false
  end.

(** A world in which every call succeeds but the closing of a client. *)
Definition world_end_fails (w : unit) (op : Migrate.Op)
  : Migrate.Outcome * unit :=
  match op with
  | Migrate.End_ _ => (Migrate.Failed "connection terminated", w)
  | _ => (Migrate.Fulfilled "", w)
  end.

(** Decimal digits, strings made of them, and strings that begin with
    one. *)
Definition is_decimal_digit (c : ascii) : bool :=
  let n := Z.of_N (N_of_ascii c) in (48 <=? n) && (n <=? 57).

Fixpoint all_decimal_digits (s : string) : bool :=
  match s with
  | String c rest => is_decimal_digit c && all_decimal_digits rest
  | EmptyString => true
  end.

Definition starts_with_decimal_digit (s : string) : bool :=
  match s with
  | String c _ => is_decimal_digit c
  | EmptyString => false
  end.

(** ** Sessions used as examples *)

(** The body [{name: n}]. *)
Definition named (n : string) : Body :=
  BObject {[ "name"%string := JStr n ]}.

(** The two bodies without a usable name: [{}] and [{name: ""}]. *)
Definition body_empty_object : Body := BObject ∅.
Definition body_empty_name : Body := named "".

(** Two creations, the first record deleted. *)
Definition session_create2_delete1 : list Request :=
  [ POST_capybaras (named "a"); POST_capybaras (named "b");
    DELETE_capybaras_id "1" ].

(** The same, followed by a third creation. *)
Definition session_create_after_delete : list Request :=
  session_create2_delete1 ++ [ POST_capybaras (named "c") ].

(** Three creations, the first two records deleted, a fourth creation. *)
Definition session_create_after_two_deletes : list Request :=
  [ POST_capybaras (named "a"); POST_capybaras (named "b");
    POST_capybaras (named "c"); DELETE_capybaras_id "1";
    DELETE_capybaras_id "2"; POST_capybaras (named "d") ].

(** An array holding one record, and one holding two records with the same
    id after it. *)
Definition store_fluffy : list Capybara :=
  [ {| id := 1; name := JStr "Fluffy" |} ].
Definition store_2_3_3 : list Capybara :=
  [ {| id := 2; name := JStr "a" |}; {| id := 3; name := JStr "b" |};
    {| id := 3; name := JStr "c" |} ].

(** No record of the array has the id that the path parameter parses to. *)
Definition id_absent (req_params_id : string) (s : list Capybara) : Prop :=
  ∀ c, c ∈ s → Some (id c) ≠ parseInt req_params_id.

(** A database in which no statement matches a row: what [SELECT ... WHERE],
    [UPDATE] and [DELETE] meet when the table holds no record of the id they
    ask for. *)
Definition exec_no_match (db : unit) (text : string)
    (params : list Relational.Param) : Relational.QueryResult * unit :=
  (Relational.Resolved [], db).

(** The list served is in ascending order of id. *)
Definition ascending_by_id (cs : list Capybara) : Prop :=
  Sorted Z.le (id <$> cs).

(** ** Kinds of requests and the records a response carries *)

Definition is_delete (req : Request) : bool :=
  match req with
  | DELETE_capybaras_id _ => true
  | _ => false
  end.

Definition is_get (req : Request) : bool :=
  match req with
  | GET_capybaras | GET_capybaras_id _ => true
  | _ => false
  end.

(** The records handed to [res.json] for a response: the list, or the one
    record.  How their names are then written in the body is
    [json_written] below. *)
Definition served (p : Payload) : list Capybara :=
  match p with
  | JsonList cs => cs
  | JsonCapybara c => [c]
  | _ => []
  end.

(** How [JSON.stringify], which [res.json] applies, writes the value of a
    property of a record: a property that is [undefined] is left out, [null]
    and the numbers that are not finite ([Infinity], [-Infinity], [NaN]) are
    written [null], every other value is written as itself (the parts of an
    array or of an object by the same rule; only the value as a whole is told
    apart here). *)
Inductive Written : Type :=
  | WOmitted
  | WNull
  | WValue (v : JsVal).

Definition json_written (v : JsVal) : Written :=
  match v with
  | JUndefined => WOmitted
  | JNull => WNull
  | JNum (S754_infinity _) | JNum S754_nan => WNull
  | _ => WValue v
  end.

(** The body [{name: 1e999}]: the number is too large for a double and
    [JSON.parse] makes [Infinity] of it. *)
Definition body_infinite_name : Body :=
  BObject {[ "name"%string := JNum (S754_infinity false) ]}.

(** ** The in-memory handlers as a relation *)



(** * Properties *)

(** ** What each in-memory handler computes *)

Section InMemoryEquations.
Implicit Types (s : list Capybara) (i : string) (b : Body).

Lemma get_capybaras_eq s :
  InMemory.get_capybaras s = (res_json (JsonList s), s, [InMemory.OpRead]).
Proof. reflexivity. Qed.

Lemma get_capybaras_id_eq i s :
  InMemory.get_capybaras_id i s =
  (match list_find (InMemory.id_is (parseInt i)) s with
   | None => InMemory.not_found
   | Some (_, c) => res_json (JsonCapybara c)
   end, s, [InMemory.OpFind (parseInt i)]).
Proof.
  unfold InMemory.get_capybaras_id, mbind, InMemory.M_bind, InMemory.find.
  destruct (list_find _ s) as [[j c]|]; reflexivity.
Qed.

Lemma post_capybaras_invalid b s :
  js_not (body_name b) = true →
  InMemory.post_capybaras b s = (InMemory.name_required, s, []).
Proof. intros H. unfold InMemory.post_capybaras. rewrite H. reflexivity. Qed.

Lemma post_capybaras_valid b s :
  js_not (body_name b) = false →
  let c := {| id := Z.of_nat (length s) + 1; name := body_name b |} in
  InMemory.post_capybaras b s =
  (res_status_json 201 (JsonCapybara c), s ++ [c],
   [InMemory.OpLength; InMemory.OpPush c]).
Proof. intros H. unfold InMemory.post_capybaras. rewrite H. reflexivity. Qed.

Lemma put_capybaras_id_eq i b s :
  InMemory.put_capybaras_id i b s =
  match list_find (InMemory.id_is (parseInt i)) s with
  | None => (InMemory.not_found, s, [InMemory.OpFind (parseInt i)])
  | Some (j, c) =>
      if js_not (body_name b)
      then (InMemory.name_required, s, [InMemory.OpFind (parseInt i)])
      else
        (res_json (JsonCapybara {| id := id c; name := body_name b |}),
         alter (λ c, {| id := id c; name := body_name b |}) j s,
         [InMemory.OpFind (parseInt i);
          InMemory.OpSetName j (body_name b)])
  end.
Proof.
  unfold InMemory.put_capybaras_id, mbind, InMemory.M_bind, InMemory.find.
  destruct (list_find _ s) as [[j c]|]; [|reflexivity].
  destruct (js_not _); reflexivity.
Qed.

Lemma delete_capybaras_id_eq i s :
  InMemory.delete_capybaras_id i s =
  match list_find (InMemory.id_is (parseInt i)) s with
  | None => (InMemory.not_found, s, [InMemory.OpFindIndex (parseInt i)])
  | Some (j, _) =>
      (res_status_send 204, delete j s,
       [InMemory.OpFindIndex (parseInt i); InMemory.OpSplice j])
  end.
Proof.
  unfold InMemory.delete_capybaras_id, mbind, InMemory.M_bind,
    InMemory.findIndex.
  destruct (list_find _ s) as [[j c]|]; reflexivity.
Qed.

(** [NaN] is the id of no record. *)
Lemma list_find_NaN s : list_find (InMemory.id_is None) s = None.
Proof. apply list_find_None, Forall_forall. intros c _ H. discriminate H. Qed.
End InMemoryEquations.

(** ** Lists: the first match and its removal *)

Section FirstMatch.
Context {A : Type} (P : A → Prop) `{!∀ x, Decision (P x)}.

(** The first match splits the list in the part before it, where nothing
    matches, and the part after it; deleting at its index keeps both. *)
Lemma list_find_split (l : list A) (j : nat) (x : A) :
  list_find P l = Some (j, x) →
  ∃ l1 l2, l = l1 ++ x :: l2 ∧ List.length l1 = j ∧ P x
           ∧ Forall (λ y, ¬ P y) l1 ∧ delete j l = l1 ++ l2.
Proof.
  revert j. induction l as [|y l IH]; intros j; csimpl; [discriminate|].
  case_decide as Hy.
  - intros [= <- <-]. exists [], l. by repeat split.
  - destruct (list_find P l) as [[k z]|] eqn:Hfind; csimpl; [|discriminate].
    intros [= <- <-].
    destruct (IH k eq_refl) as (l1 & l2 & -> & <- & Hz & Hl1 & Hdel).
    exists (y :: l1), l2. split_and!; auto.
    change (y :: delete (List.length l1) (l1 ++ z :: l2) = y :: l1 ++ l2).
    by rewrite Hdel.
Qed.
End FirstMatch.

(** ** Requests with a missing or empty name *)

Lemma js_not_body_empty_object : js_not (body_name body_empty_object) = true.
Proof. reflexivity. Qed.

Lemma js_not_body_empty_name : js_not (body_name body_empty_name) = true.
Proof. unfold body_empty_name, named, body_name. by rewrite lookup_singleton_eq. Qed.

Lemma relational_post_invalid (b : Body) :
  js_not (body_name b) = true →
  Relational.post_capybaras b = Relational.Respond Relational.name_required.
Proof. intros H. unfold Relational.post_capybaras. by rewrite H. Qed.

Lemma relational_put_invalid (i : string) (b : Body) :
  js_not (body_name b) = true →
  Relational.put_capybaras_id i b
  = Relational.Respond Relational.name_required.
Proof. intros H. unfold Relational.put_capybaras_id. by rewrite H. Qed.

(** C7: [POST /capybaras] with body [{}] or [{name: ""}] answers 400
    "Name is required" and creates nothing.  In the in-memory variant the
    array is left as it was, no access to it is made, and the list served by
    a following [GET /capybaras] is the one served before.  In the relational
    variant the handler answers without sending any statement, so whatever
    the database is, it is left as it was. *)
Theorem post_without_name_is_400_and_creates_nothing :
  ∀ b, b = body_empty_object ∨ b = body_empty_name →
  (∀ s : list Capybara,
     let r := InMemory.handle (POST_capybaras b) s in
     InMemory.response r
       = {| status := 400; payload := JsonMessage "Name is required" |}
     ∧ InMemory.store_after r = s
     ∧ InMemory.trace r = []
     ∧ InMemory.response
         (InMemory.handle GET_capybaras (InMemory.store_after r))
       = InMemory.response (InMemory.handle GET_capybaras s))
  ∧ (∀ (Db : Type) (exec : Db → string → list Relational.Param
                             → Relational.QueryResult * Db) (db : Db),
       Relational.run exec (Relational.handle (POST_capybaras b)) db
       = ({| status := 400; payload := JsonMessage "Name is required" |},
          db, [])).
Proof.
  intros b Hb.
  assert (Hname : js_not (body_name b) = true).
  { destruct Hb as [-> | ->];
      [apply js_not_body_empty_object | apply js_not_body_empty_name]. }
  split.
  - intros s. cbn. rewrite (post_capybaras_invalid b s Hname). by cbn.
  - intros Db exec db. cbn. by rewrite (relational_post_invalid b Hname).
Qed.

Lemma post_without_name_witness :
  (body_empty_name = body_empty_object ∨ body_empty_name = body_empty_name)
  ∧ InMemory.store_after
      (InMemory.handle (POST_capybaras body_empty_name) store_fluffy)
    = store_fluffy.
Proof.
  split; [by right|].
  apply (post_without_name_is_400_and_creates_nothing body_empty_name);
    by right.
Defined.

(** ** Deleting in the in-memory variant *)

(** C8: when the in-memory [DELETE /capybaras/:id] answers 204, the path
    parameter parsed to a number [n], and the array was [before ++ c :: after]
    where [c] is the first record whose id is [n] (no record of [before] has
    that id); afterwards the array is [before ++ after]: one record shorter,
    every other record unchanged and in the same order. *)
Theorem delete_removes_exactly_the_first_match
  (i : string) (s : list Capybara) :
  status (InMemory.response (InMemory.handle (DELETE_capybaras_id i) s)) = 204 →
  ∃ (n : Z) (before after : list Capybara) (c : Capybara),
    parseInt i = Some n
    ∧ s = before ++ c :: after
    ∧ id c = n
    ∧ Forall (λ x, id x ≠ n) before
    ∧ InMemory.store_after (InMemory.handle (DELETE_capybaras_id i) s)
      = before ++ after
    ∧ List.length s
      = S (List.length
             (InMemory.store_after
                (InMemory.handle (DELETE_capybaras_id i) s))).
Proof.
  cbn [InMemory.handle]. rewrite delete_capybaras_id_eq.
  destruct (list_find _ s) as [[j c]|] eqn:Hfind; cbn; [intros _|discriminate].
  apply list_find_split in Hfind
    as (before & after & -> & <- & Hc & Hbefore & Hdel).
  unfold InMemory.id_is in Hc.
  destruct (parseInt i) as [n|]; [|discriminate].
  injection Hc as Hc.
  exists n, before, after, c. split_and!; auto.
  - eapply Forall_impl; [exact Hbefore|]. cbn. intros x Hx Heq.
    apply Hx. unfold InMemory.id_is. by rewrite Heq.
  - rewrite Hdel, !length_app. cbn. lia.
Qed.

Lemma delete_removes_first_match_witness :
  status (InMemory.response
            (InMemory.handle (DELETE_capybaras_id "3") store_2_3_3)) = 204
  ∧ ∃ (n : Z) (before after : list Capybara) (c : Capybara),
      parseInt "3" = Some n
      ∧ store_2_3_3 = before ++ c :: after
      ∧ id c = n
      ∧ Forall (λ x, id x ≠ n) before
      ∧ InMemory.store_after
          (InMemory.handle (DELETE_capybaras_id "3") store_2_3_3)
        = before ++ after
      ∧ List.length store_2_3_3
        = S (List.length
               (InMemory.store_after
                  (InMemory.handle (DELETE_capybaras_id "3") store_2_3_3))).
Proof.
  split; [reflexivity|].
  apply (delete_removes_exactly_the_first_match "3" store_2_3_3). reflexivity.
Defined.

(** ** Path parameters that are not numbers *)

(** C9: in the in-memory variant, when [parseInt] makes [NaN] of the path
    parameter, [GET], [PUT] (whatever the body) and [DELETE] on
    [/capybaras/:id] answer 404 with the message "Capybara not found", and
    leave the array as it was.  The handlers are total functions: there is
    no other outcome. *)
Theorem malformed_id_is_not_found
  (i : string) (b : Body) (s : list Capybara) :
  parseInt i = None →
  ∀ req, req = GET_capybaras_id i ∨ req = PUT_capybaras_id i b
         ∨ req = DELETE_capybaras_id i →
  InMemory.response (InMemory.handle req s)
  = {| status := 404; payload := JsonMessage "Capybara not found" |}
  ∧ InMemory.store_after (InMemory.handle req s) = s.
Proof.
  intros Hnan req [-> | [-> | ->]]; cbn [InMemory.handle].
  - by rewrite get_capybaras_id_eq, Hnan, list_find_NaN.
  - by rewrite put_capybaras_id_eq, Hnan, list_find_NaN.
  - by rewrite delete_capybaras_id_eq, Hnan, list_find_NaN.
Qed.

Lemma malformed_id_witness :
  parseInt "abc" = None
  ∧ (DELETE_capybaras_id "abc" = GET_capybaras_id "abc"
     ∨ DELETE_capybaras_id "abc" = PUT_capybaras_id "abc" body_empty_object
     ∨ DELETE_capybaras_id "abc" = DELETE_capybaras_id "abc")
  ∧ InMemory.response
      (InMemory.handle (DELETE_capybaras_id "abc") store_fluffy)
    = {| status := 404; payload := JsonMessage "Capybara not found" |}.
Proof.
  split; [reflexivity|]. split; [by right; right|].
  apply (malformed_id_is_not_found "abc" body_empty_object store_fluffy eq_refl
           (DELETE_capybaras_id "abc")).
  by right; right.
Defined.

(** ** Determinism of the in-memory variant *)






(** ** Sessions of the in-memory variant *)

Lemma reachable_serve (reqs : list Request) (s : list Capybara) :
  InMemory.reachable s → InMemory.reachable (InMemory.serve reqs s).
Proof.
  revert s. induction reqs as [|req reqs IH]; intros s Hs; [exact Hs|].
  apply IH. by constructor.
Qed.

(** A value that passed the test [if (!name) return ...] is neither
    [undefined], nor [null], nor the empty string. *)
Lemma js_not_false_nonempty (v : JsVal) :
  js_not v = false → v ≠ JUndefined ∧ v ≠ JNull ∧ v ≠ JStr "".
Proof. intros H. split_and!; intros ->; discriminate H. Qed.

(** The name half of the data-model invariant does hold: every record of a
    reachable array has a name that passed the test. *)
Lemma reachable_names (s : list Capybara) :
  InMemory.reachable s → Forall (λ c, js_not (name c) = false) s.
Proof.
  induction 1 as [|s req Hs IH]; [constructor|].
  destruct req as [|i|b|i b|i]; cbn [InMemory.handle].
  - exact IH.
  - by rewrite get_capybaras_id_eq.
  - destruct (js_not (body_name b)) eqn:Hname.
    + by rewrite post_capybaras_invalid.
    + rewrite post_capybaras_valid by done. cbn.
      apply Forall_app. split; [exact IH|]. by repeat constructor.
  - rewrite put_capybaras_id_eq.
    destruct (list_find _ s) as [[j c]|]; [|exact IH].
    destruct (js_not (body_name b)) eqn:Hname; [exact IH|]. cbn.
    apply Forall_lookup. intros k x Hk.
    destruct (decide (j = k)) as [->|Hjk].
    * rewrite list_lookup_alter_eq in Hk.
      destruct (s !! k); [|discriminate]. by injection Hk as <-.
    * rewrite list_lookup_alter_ne in Hk by done.
      by eapply Forall_lookup_1 in IH.
  - rewrite delete_capybaras_id_eq.
    destruct (list_find _ s) as [[j c]|] eqn:Hfind; [|exact IH]. cbn.
    apply list_find_split in Hfind as (l1 & l2 & -> & _ & _ & _ & ->).
    apply Forall_app in IH as [H1 H2]. apply Forall_cons in H2 as [_ H2].
    apply Forall_app. by split.
Qed.

(** C1: the in-memory insert takes [capybaras.length + 1] as the new id.
    After two creations and the deletion of record 1, the array holds one
    record, with id 2; the next creation is given id 2 again.  The array
    reached holds two records with the same id. *)
Theorem id_is_reused_after_delete :
  InMemory.reachable (InMemory.serve session_create_after_delete [])
  ∧ InMemory.serve session_create_after_delete []
    = [ {| id := 2; name := JStr "b" |}; {| id := 2; name := JStr "c" |} ]
  ∧ ¬ NoDup (id <$> InMemory.serve session_create_after_delete []).
Proof.
  assert (Heq : InMemory.serve session_create_after_delete []
                = [ {| id := 2; name := JStr "b" |};
                    {| id := 2; name := JStr "c" |} ])
    by (vm_compute; reflexivity).
  split_and!.
  - apply reachable_serve. constructor.
  - exact Heq.
  - rewrite Heq. cbn. intros [Hin _]%NoDup_cons. apply Hin. left.
Qed.

(** C2: from the reachable array that holds the single record
    [{id: 2, name: "b"}], [POST /capybaras {name: "c"}] answers 201 with
    id 2, and the [GET /capybaras/2] that follows answers 200 with the older
    record, whose name is "b" and not the posted "c". *)
Theorem post_then_get_returns_another_name :
  InMemory.reachable (InMemory.serve session_create2_delete1 [])
  ∧ InMemory.response
      (InMemory.handle (POST_capybaras (named "c"))
         (InMemory.serve session_create2_delete1 []))
    = {| status := 201;
         payload := JsonCapybara {| id := 2; name := JStr "c" |} |}
  ∧ InMemory.response
      (InMemory.handle (GET_capybaras_id "2")
         (InMemory.store_after
            (InMemory.handle (POST_capybaras (named "c"))
               (InMemory.serve session_create2_delete1 []))))
    = {| status := 200;
         payload := JsonCapybara {| id := 2; name := JStr "b" |} |}.
Proof.
  split_and!.
  - apply reachable_serve. constructor.
  - vm_compute. reflexivity.
  - vm_compute. reflexivity.
Qed.

(** C3: on the reachable array with two records of id 2,
    [DELETE /capybaras/2] answers 204 and removes the first of them only;
    the [GET /capybaras/2] that follows answers 200 with the second. *)
Theorem delete_then_get_still_finds_a_record :
  InMemory.reachable (InMemory.serve session_create_after_delete [])
  ∧ InMemory.response
      (InMemory.handle (DELETE_capybaras_id "2")
         (InMemory.serve session_create_after_delete []))
    = {| status := 204; payload := NoBody |}
  ∧ InMemory.response
      (InMemory.handle (GET_capybaras_id "2")
         (InMemory.store_after
            (InMemory.handle (DELETE_capybaras_id "2")
               (InMemory.serve session_create_after_delete []))))
    = {| status := 200;
         payload := JsonCapybara {| id := 2; name := JStr "c" |} |}.
Proof.
  split_and!.
  - apply reachable_serve. constructor.
  - vm_compute. reflexivity.
  - vm_compute. reflexivity.
Qed.

(** C4: the in-memory [GET /capybaras] serves the array in the order of
    insertion.  After three creations, the deletion of records 1 and 2 and a
    fourth creation, the list served is id 3 followed by id 2: it is not in
    ascending order of id. *)
Theorem list_is_not_ascending_after_deletes :
  InMemory.reachable (InMemory.serve session_create_after_two_deletes [])
  ∧ InMemory.response
      (InMemory.handle GET_capybaras
         (InMemory.serve session_create_after_two_deletes []))
    = {| status := 200;
         payload := JsonList [ {| id := 3; name := JStr "c" |};
                               {| id := 2; name := JStr "d" |} ] |}
  ∧ ¬ ascending_by_id
        [ {| id := 3; name := JStr "c" |}; {| id := 2; name := JStr "d" |} ].
Proof.
  split_and!.
  - apply reachable_serve. constructor.
  - vm_compute. reflexivity.
  - unfold ascending_by_id. cbn. intros H.
    apply Sorted_inv in H as [_ H]. apply HdRel_inv in H. lia.
Qed.

(** ** The order of the checks in [PUT /capybaras/:id] *)

Lemma id_absent_list_find (i : string) (s : list Capybara) :
  id_absent i s → list_find (InMemory.id_is (parseInt i)) s = None.
Proof.
  intros Habs. apply list_find_None, Forall_forall. intros c Hc.
  exact (Habs c Hc).
Qed.

(** C5, as stated, fails on the relational variant: [PUT /capybaras/7] with
    body [{}] answers 400 whatever the database holds; on a database where
    the [UPDATE] matches no row (id 7 is not present: the same request with
    a name answers 404) the answer is 400 and no statement is sent. *)
Lemma relational_put_on_absent_id_answers_400 :
  Relational.run exec_no_match
    (Relational.handle (PUT_capybaras_id "7" (named "Chonky"))) tt
  = ({| status := 404; payload := JsonMessage "Capybara not found" |}, tt,
     [ ("UPDATE capybara SET name = $1 WHERE id = $2 RETURNING *"%string,
        [ Relational.PVal (JStr "Chonky"); Relational.PNumber (Some 7) ]) ])
  ∧ Relational.run exec_no_match
      (Relational.handle (PUT_capybaras_id "7" body_empty_object)) tt
    = ({| status := 400; payload := JsonMessage "Name is required" |}, tt, [])
  ∧ Relational.handle (PUT_capybaras_id "7" body_empty_object)
    = Relational.Respond
        {| status := 400; payload := JsonMessage "Name is required" |}.
Proof. split_and!; vm_compute; reflexivity. Qed.

(** C5, amended: in the in-memory variant, [PUT /capybaras/:id] on an id
    that no record has answers 404 "Capybara not found" for every body and
    leaves the array as it was.  In the relational variant the name is
    checked first: without a usable name the answer is 400 and no statement
    is sent; with one, the [UPDATE] is sent, and when it matches no row the
    answer is 404. *)
Theorem put_on_absent_id (i : string) (b : Body) (s : list Capybara) :
  id_absent i s →
  (InMemory.response (InMemory.handle (PUT_capybaras_id i b) s)
   = {| status := 404; payload := JsonMessage "Capybara not found" |}
   ∧ InMemory.store_after (InMemory.handle (PUT_capybaras_id i b) s) = s)
  ∧ ∀ (Db : Type) (exec : Db → string → list Relational.Param
                           → Relational.QueryResult * Db) (db : Db),
      (js_not (body_name b) = true →
       Relational.run exec (Relational.handle (PUT_capybaras_id i b)) db
       = ({| status := 400; payload := JsonMessage "Name is required" |},
          db, []))
      ∧ (js_not (body_name b) = false →
         ∀ db', exec db "UPDATE capybara SET name = $1 WHERE id = $2 RETURNING *"
                  [ Relational.PVal (body_name b);
                    Relational.PNumber (parseInt i) ]
                = (Relational.Resolved [], db') →
         Relational.run exec (Relational.handle (PUT_capybaras_id i b)) db
         = ({| status := 404; payload := JsonMessage "Capybara not found" |},
            db',
            [ ("UPDATE capybara SET name = $1 WHERE id = $2 RETURNING *"%string,
               [ Relational.PVal (body_name b);
                 Relational.PNumber (parseInt i) ]) ])).
Proof.
  intros Habs. split.
  - cbn [InMemory.handle]. rewrite put_capybaras_id_eq.
    by rewrite (id_absent_list_find i s Habs).
  - intros Db exec db. split; intros Hname.
    + cbn [Relational.handle]. by rewrite relational_put_invalid.
    + intros db' Hexec. cbn [Relational.handle].
      unfold Relational.put_capybaras_id. rewrite Hname.
      cbn [Relational.run]. by rewrite Hexec.
Qed.

Lemma put_on_absent_id_witness :
  id_absent "7" store_fluffy
  ∧ InMemory.response
      (InMemory.handle (PUT_capybaras_id "7" body_empty_object) store_fluffy)
    = {| status := 404; payload := JsonMessage "Capybara not found" |}.
Proof.
  assert (H : id_absent "7" store_fluffy).
  { intros c Hc. apply list_elem_of_singleton in Hc as ->. discriminate. }
  split; [exact H|].
  apply (put_on_absent_id "7" body_empty_object store_fluffy H).
Defined.

(** C6, as stated, fails on the in-memory variant: [PUT /capybaras/1] with
    body [{}] looks the id up first.  On the empty array the answer is 404,
    not 400; on an array that holds record 1 the answer is 400, but only
    after the lookup. *)
Lemma in_memory_put_looks_up_before_validating :
  InMemory.handle (PUT_capybaras_id "1" body_empty_object) []
  = ({| status := 404; payload := JsonMessage "Capybara not found" |}, [],
     [ InMemory.OpFind (Some 1) ])
  ∧ InMemory.handle (PUT_capybaras_id "1" body_empty_object) store_fluffy
    = ({| status := 400; payload := JsonMessage "Name is required" |},
       store_fluffy, [ InMemory.OpFind (Some 1) ]).
Proof. split; vm_compute; reflexivity. Qed.

(** C6, amended: when the body has no name or an empty one, [POST] in both
    variants and [PUT] in the relational variant answer 400 "Name is
    required" before any storage operation: the in-memory array is not
    accessed, no statement is sent to the database.  The in-memory [PUT]
    looks the id up first, which is its only access to the array and changes
    nothing: it answers 404 when no record has the id and 400 otherwise. *)
Theorem validation_before_storage (b : Body) :
  body_name b = JUndefined ∨ body_name b = JStr "" →
  (∀ s : list Capybara,
     InMemory.handle (POST_capybaras b) s
     = ({| status := 400; payload := JsonMessage "Name is required" |}, s, []))
  ∧ (∀ (Db : Type) (exec : Db → string → list Relational.Param
                             → Relational.QueryResult * Db) (db : Db)
       (req : Request),
       req = POST_capybaras b ∨ (∃ i, req = PUT_capybaras_id i b) →
       Relational.run exec (Relational.handle req) db
       = ({| status := 400; payload := JsonMessage "Name is required" |},
          db, []))
  ∧ (∀ (i : string) (s : list Capybara),
       InMemory.handle (PUT_capybaras_id i b) s
       = (match list_find (InMemory.id_is (parseInt i)) s with
          | None =>
              {| status := 404; payload := JsonMessage "Capybara not found" |}
          | Some _ =>
              {| status := 400; payload := JsonMessage "Name is required" |}
          end, s, [ InMemory.OpFind (parseInt i) ])).
Proof.
  intros Hb.
  assert (Hname : js_not (body_name b) = true)
    by (destruct Hb as [-> | ->]; reflexivity).
  split_and!.
  - intros s. cbn [InMemory.handle]. by rewrite post_capybaras_invalid.
  - intros Db exec db req [-> | [i ->]]; cbn [Relational.handle].
    + by rewrite relational_post_invalid.
    + by rewrite relational_put_invalid.
  - intros i s. cbn [InMemory.handle]. rewrite put_capybaras_id_eq, Hname.
    by destruct (list_find _ s) as [[j c]|].
Qed.

Lemma validation_before_storage_witness :
  (body_name body_empty_name = JUndefined
   ∨ body_name body_empty_name = JStr "")
  ∧ InMemory.handle (POST_capybaras body_empty_name) store_fluffy
    = ({| status := 400; payload := JsonMessage "Name is required" |},
       store_fluffy, []).
Proof.
  assert (H : body_name body_empty_name = JUndefined
              ∨ body_name body_empty_name = JStr "")
    by (right; vm_compute; reflexivity).
  split; [exact H|].
  apply (validation_before_storage body_empty_name H).
Defined.

(** ** What holds as long as ids are not reused *)

Section UniqueIds.
Implicit Types (s : list Capybara) (i : string) (b : Body).

(** When no record has the id that the insert is about to take, the
    record created is the one that a [GET] of that id finds. *)
Lemma post_then_get_when_id_is_fresh b s i :
  js_not (body_name b) = false →
  parseInt i = Some (Z.of_nat (List.length s) + 1) →
  Forall (λ c, id c ≠ Z.of_nat (List.length s) + 1) s →
  InMemory.response
    (InMemory.handle (GET_capybaras_id i)
       (InMemory.store_after (InMemory.handle (POST_capybaras b) s)))
  = {| status := 200;
       payload := JsonCapybara {| id := Z.of_nat (List.length s) + 1;
                                  name := body_name b |} |}.
Proof.
  intros Hname Hi Hfresh. cbn [InMemory.handle].
  rewrite post_capybaras_valid by done. cbn.
  rewrite get_capybaras_id_eq, Hi. cbn.
  rewrite list_find_app_r.
  - cbn. by rewrite decide_True.
  - apply list_find_None. eapply Forall_impl; [exact Hfresh|].
    intros c Hc [= Heq]. by apply Hc.
Qed.

(** When the ids of the array are pairwise distinct, a [GET] that follows
    a [DELETE] of the same id answers 404. *)
Lemma delete_then_get_when_ids_are_unique i s :
  NoDup (id <$> s) →
  InMemory.response
    (InMemory.handle (GET_capybaras_id i)
       (InMemory.store_after (InMemory.handle (DELETE_capybaras_id i) s)))
  = {| status := 404; payload := JsonMessage "Capybara not found" |}.
Proof.
  intros Hnodup. cbn [InMemory.handle]. rewrite delete_capybaras_id_eq.
  destruct (list_find _ s) as [[j c]|] eqn:Hfind; cbn.
  - apply list_find_split in Hfind as (l1 & l2 & -> & _ & Hc & Hl1 & ->).
    rewrite get_capybaras_id_eq.
    replace (list_find (InMemory.id_is (parseInt i)) (l1 ++ l2))
      with (@None (nat * Capybara)); [done|].
    symmetry. apply list_find_None, Forall_app. split; [exact Hl1|].
    rewrite fmap_app, fmap_cons in Hnodup.
    apply NoDup_app in Hnodup as (_ & _ & [Hnotin _]%NoDup_cons).
    apply Forall_forall. intros x Hx Hpx. apply Hnotin.
    unfold InMemory.id_is in Hc, Hpx. rewrite <- Hpx in Hc.
    injection Hc as ->. apply list_elem_of_fmap. by exists x.
  - by rewrite get_capybaras_id_eq, Hfind.
Qed.
End UniqueIds.

(** The scenario of the specification, on the in-memory variant: create
    "Fluffy", read it, rename it "Chonky", delete it, fail to read it. *)
Example scenario_fluffy_chonky :
  InMemory.response (InMemory.handle (POST_capybaras (named "Fluffy")) [])
  = {| status := 201;
       payload := JsonCapybara {| id := 1; name := JStr "Fluffy" |} |}
  ∧ InMemory.response (InMemory.handle (GET_capybaras_id "1") store_fluffy)
    = {| status := 200;
         payload := JsonCapybara {| id := 1; name := JStr "Fluffy" |} |}
  ∧ InMemory.handle (PUT_capybaras_id "1" (named "Chonky")) store_fluffy
    = ({| status := 200;
          payload := JsonCapybara {| id := 1; name := JStr "Chonky" |} |},
       [ {| id := 1; name := JStr "Chonky" |} ],
       [ InMemory.OpFind (Some 1); InMemory.OpSetName 0 (JStr "Chonky") ])
  ∧ InMemory.handle (DELETE_capybaras_id "1")
      [ {| id := 1; name := JStr "Chonky" |} ]
    = ({| status := 204; payload := NoBody |}, [],
       [ InMemory.OpFindIndex (Some 1); InMemory.OpSplice 0 ])
  ∧ InMemory.response (InMemory.handle (GET_capybaras_id "1") [])
    = {| status := 404; payload := JsonMessage "Capybara not found" |}.
Proof. split_and!; vm_compute; reflexivity. Qed.

(** [parseInt] on a few path parameters. *)
Example parseInt_samples :
  parseInt "42" = Some 42 ∧ parseInt " -12abc" = Some (-12)
  ∧ parseInt "0x1F" = Some 31 ∧ parseInt "1.5" = Some 1
  ∧ parseInt "abc" = None ∧ parseInt "" = None ∧ parseInt "-" = None
  ∧ parseInt "0x" = None.
Proof. split_and!; reflexivity. Qed.

(** * Further properties of the in-memory variant *)

(** ** The ids of a session *)

Lemma Sorted_seqZ (m n : Z) : Sorted Z.le (seqZ m n).
Proof.
  remember (Z.to_nat n) as k eqn:Hk. revert m n Hk.
  induction k as [|k IH]; intros m n Hk.
  - rewrite seqZ_nil by lia. constructor.
  - rewrite seqZ_cons by lia. constructor; [apply IH; lia|].
    destruct (decide (0 < Z.pred n)) as [Hpos|Hneg].
    + rewrite seqZ_cons by done. constructor. lia.
    + rewrite seqZ_nil by lia. constructor.
Qed.

(** A request other than [DELETE] keeps the ids 1, 2, ..., n in order. *)
Lemma ids_in_sequence_step (req : Request) (s : list Capybara) :
  is_delete req = false →
  id <$> s = seqZ 1 (Z.of_nat (List.length s)) →
  id <$> InMemory.store_after (InMemory.handle req s)
  = seqZ 1 (Z.of_nat
              (List.length (InMemory.store_after (InMemory.handle req s)))).
Proof.
  intros Hreq Hs. destruct req as [|i|b|i b|i]; cbn [InMemory.handle];
    [exact Hs| |..|discriminate Hreq].
  - by rewrite get_capybaras_id_eq.
  - destruct (js_not (body_name b)) eqn:Hname.
    + by rewrite post_capybaras_invalid.
    + rewrite post_capybaras_valid by done. cbn.
      rewrite fmap_app, length_app, Hs. cbn.
      rewrite Nat.add_1_r, seqZ_S. do 2 f_equal. lia.
  - rewrite put_capybaras_id_eq.
    destruct (list_find _ s) as [[j c]|]; [|exact Hs].
    destruct (js_not (body_name b)); [exact Hs|]. cbn.
    rewrite length_alter, <- Hs.
    rewrite (list_fmap_alter id _ (λ z, z)) by (by apply Forall_true).
    by apply list_alter_id.
Qed.

(** A session without [DELETE] keeps the ids 1, 2, ..., n in order. *)
Lemma ids_in_sequence_serve (reqs : list Request) (s : list Capybara) :
  forallb (λ req, negb (is_delete req)) reqs = true →
  id <$> s = seqZ 1 (Z.of_nat (List.length s)) →
  id <$> InMemory.serve reqs s
  = seqZ 1 (Z.of_nat (List.length (InMemory.serve reqs s))).
Proof.
  revert s. induction reqs as [|req reqs IH]; intros s Hreqs Hs; [exact Hs|].
  cbn in Hreqs. apply andb_true_iff in Hreqs as [Hreq Hreqs].
  apply negb_true_iff in Hreq.
  apply (IH _ Hreqs). by apply ids_in_sequence_step.
Qed.

(** X1: in a session without [DELETE], started on the empty array, the
    stored ids are 1, 2, ..., n, in this order, where n is the number of
    records. *)
Theorem ids_without_delete_are_1_to_n (reqs : list Request) :
  forallb (λ req, negb (is_delete req)) reqs = true →
  id <$> InMemory.serve reqs []
  = seqZ 1 (Z.of_nat (List.length (InMemory.serve reqs []))).
Proof.
  intros Hreqs. apply ids_in_sequence_serve; [exact Hreqs|].
  cbn. by rewrite seqZ_nil.
Qed.

Lemma ids_without_delete_witness :
  forallb (λ req, negb (is_delete req))
    [ POST_capybaras (named "a"); PUT_capybaras_id "1" (named "b");
      POST_capybaras (named "c") ] = true
  ∧ id <$> InMemory.serve
             [ POST_capybaras (named "a"); PUT_capybaras_id "1" (named "b");
               POST_capybaras (named "c") ] []
    = seqZ 1 (Z.of_nat
                (List.length
                   (InMemory.serve
                      [ POST_capybaras (named "a");
                        PUT_capybaras_id "1" (named "b");
                        POST_capybaras (named "c") ] []))).
Proof.
  split; [reflexivity|].
  apply (ids_without_delete_are_1_to_n
           [ POST_capybaras (named "a"); PUT_capybaras_id "1" (named "b");
             POST_capybaras (named "c") ]).
  reflexivity.
Defined.

(** X2: in a session without [DELETE], started on the empty array, no two
    stored records share an id, and the array (which is what
    [GET /capybaras] serves) is in ascending order of id. *)
Theorem without_delete_ids_unique_and_ascending (reqs : list Request) :
  forallb (λ req, negb (is_delete req)) reqs = true →
  NoDup (id <$> InMemory.serve reqs [])
  ∧ ascending_by_id (InMemory.serve reqs [])
  ∧ InMemory.response
      (InMemory.handle GET_capybaras (InMemory.serve reqs []))
    = {| status := 200; payload := JsonList (InMemory.serve reqs []) |}.
Proof.
  intros Hreqs. unfold ascending_by_id.
  rewrite (ids_in_sequence_serve reqs [] Hreqs) by (cbn; by rewrite seqZ_nil).
  split_and!; [apply NoDup_seqZ | apply Sorted_seqZ | reflexivity].
Qed.

Lemma without_delete_unique_ascending_witness :
  forallb (λ req, negb (is_delete req))
    [ POST_capybaras (named "a"); POST_capybaras (named "b") ] = true
  ∧ NoDup (id <$> InMemory.serve
                    [ POST_capybaras (named "a"); POST_capybaras (named "b") ]
                    []).
Proof.
  split; [reflexivity|].
  apply (without_delete_ids_unique_and_ascending
           [ POST_capybaras (named "a"); POST_capybaras (named "b") ]).
  reflexivity.
Defined.

(** X3: in every array that a session can reach, the record at position k
    (counted from 0) has an id of at least k + 1; in particular every id is
    a positive integer. *)
Theorem reachable_id_at_least_position (s : list Capybara) :
  InMemory.reachable s →
  ∀ (k : nat) (c : Capybara), s !! k = Some c → Z.of_nat k + 1 ≤ id c.
Proof.
  induction 1 as [|s req Hs IH]; [intros k c Hk; discriminate Hk|].
  intros k x. destruct req as [|i|b|i b|i]; cbn [InMemory.handle].
  - apply IH.
  - rewrite get_capybaras_id_eq. apply IH.
  - destruct (js_not (body_name b)) eqn:Hname.
    + rewrite post_capybaras_invalid by done. apply IH.
    + rewrite post_capybaras_valid by done. cbn.
      intros [[_ Hk] | [-> <-]]%lookup_snoc_Some; [by apply IH|]. cbn. lia.
  - rewrite put_capybaras_id_eq.
    destruct (list_find _ s) as [[j c]|]; [|apply IH].
    destruct (js_not (body_name b)); [apply IH|]. cbn.
    destruct (decide (j = k)) as [->|Hjk].
    + rewrite list_lookup_alter_eq.
      destruct (s !! k) as [y|] eqn:Hy; [|discriminate].
      intros [= <-]. cbn. by apply IH.
    + rewrite list_lookup_alter_ne by done. apply IH.
  - rewrite delete_capybaras_id_eq.
    destruct (list_find _ s) as [[j c]|]; [|apply IH]. cbn.
    destruct (decide (k < j)%nat) as [Hlt|Hge].
    + rewrite list_lookup_delete_lt by done. apply IH.
    + rewrite list_lookup_delete_ge by lia. intros Hk.
      apply IH in Hk. lia.
Qed.

Lemma reachable_id_at_least_position_witness :
  InMemory.reachable (InMemory.serve session_create_after_delete [])
  ∧ InMemory.serve session_create_after_delete [] !! 1%nat
    = Some {| id := 2; name := JStr "c" |}
  ∧ Z.of_nat 1 + 1 ≤ id {| id := 2; name := JStr "c" |}.
Proof.
  assert (Hr : InMemory.reachable
                 (InMemory.serve session_create_after_delete []))
    by (apply reachable_serve; constructor).
  assert (Hk : InMemory.serve session_create_after_delete [] !! 1%nat
               = Some {| id := 2; name := JStr "c" |})
    by (vm_compute; reflexivity).
  split; [exact Hr|]. split; [exact Hk|].
  exact (reachable_id_at_least_position _ Hr 1%nat _ Hk).
Defined.

(** ** Requests that change nothing *)

(** X4: a [GET] request, and any request answered with a status of 400 or
    more, leaves the array exactly as it was. *)
Theorem reads_and_errors_change_nothing (req : Request) (s : list Capybara) :
  is_get req = true
  ∨ 400 ≤ status (InMemory.response (InMemory.handle req s)) →
  InMemory.store_after (InMemory.handle req s) = s.
Proof.
  destruct req as [|i|b|i b|i]; cbn [InMemory.handle].
  - reflexivity.
  - by rewrite get_capybaras_id_eq.
  - intros [Hget | Hst]; [discriminate Hget|].
    destruct (js_not (body_name b)) eqn:Hname.
    + by rewrite post_capybaras_invalid.
    + rewrite post_capybaras_valid in Hst by done. cbn in Hst. lia.
  - intros [Hget | Hst]; [discriminate Hget|].
    rewrite put_capybaras_id_eq in Hst |- *.
    destruct (list_find _ s) as [[j c]|]; [|reflexivity].
    destruct (js_not (body_name b)); [reflexivity|]. cbn in Hst. lia.
  - intros [Hget | Hst]; [discriminate Hget|].
    rewrite delete_capybaras_id_eq in Hst |- *.
    destruct (list_find _ s) as [[j c]|]; [|reflexivity]. cbn in Hst. lia.
Qed.

Lemma reads_and_errors_witness :
  (is_get (PUT_capybaras_id "1" body_empty_name) = true
   ∨ 400 ≤ status (InMemory.response
                     (InMemory.handle (PUT_capybaras_id "1" body_empty_name)
                        store_fluffy)))
  ∧ InMemory.store_after
      (InMemory.handle (PUT_capybaras_id "1" body_empty_name) store_fluffy)
    = store_fluffy.
Proof.
  assert (H : is_get (PUT_capybaras_id "1" body_empty_name) = true
              ∨ 400 ≤ status (InMemory.response
                                (InMemory.handle
                                   (PUT_capybaras_id "1" body_empty_name)
                                   store_fluffy)))
    by (right; vm_compute; discriminate).
  split; [exact H|].
  exact (reads_and_errors_change_nothing _ _ H).
Defined.

(** ** Updating in the in-memory variant *)

(** A [PUT] answered with 200 found a first match and renamed it. *)
Lemma put_200_inv (i : string) (b : Body) (s : list Capybara) :
  status (InMemory.response (InMemory.handle (PUT_capybaras_id i b) s)) = 200 →
  ∃ (n : Z) (before after : list Capybara) (c : Capybara),
    parseInt i = Some n
    ∧ js_not (body_name b) = false
    ∧ s = before ++ c :: after
    ∧ id c = n
    ∧ Forall (λ x, id x ≠ n) before
    ∧ InMemory.handle (PUT_capybaras_id i b) s
      = (res_json (JsonCapybara {| id := n; name := body_name b |}),
         alter (λ c, {| id := id c; name := body_name b |})
           (List.length before) s,
         [ InMemory.OpFind (Some n);
           InMemory.OpSetName (List.length before) (body_name b) ]).
Proof.
  cbn [InMemory.handle]. rewrite put_capybaras_id_eq.
  destruct (list_find _ s) as [[j c]|] eqn:Hfind; [|discriminate].
  destruct (js_not (body_name b)) eqn:Hname; [discriminate|]. cbn. intros _.
  apply list_find_split in Hfind
    as (before & after & -> & <- & Hc & Hbefore & _).
  unfold InMemory.id_is in Hc.
  destruct (parseInt i) as [n|]; [|discriminate].
  injection Hc as Hc.
  exists n, before, after, c. split_and!; auto.
  - eapply Forall_impl; [exact Hbefore|]. cbn. intros x Hx Heq.
    apply Hx. unfold InMemory.id_is. by rewrite Heq.
  - by rewrite Hc.
Qed.

(** X5: when the in-memory [PUT /capybaras/:id] answers 200, the path
    parameter parsed to a number [n], the name of the body passed the test,
    and the array was [before ++ c :: after] where [c] is the first record
    whose id is [n].  Afterwards the array is the same with [c] renamed: the
    id of [c], every other record, the order and the length are unchanged.
    The answer carries the renamed record. *)
Theorem put_renames_exactly_the_first_match
  (i : string) (b : Body) (s : list Capybara) :
  status (InMemory.response (InMemory.handle (PUT_capybaras_id i b) s)) = 200 →
  ∃ (n : Z) (before after : list Capybara) (c : Capybara),
    parseInt i = Some n
    ∧ js_not (body_name b) = false
    ∧ s = before ++ c :: after
    ∧ id c = n
    ∧ Forall (λ x, id x ≠ n) before
    ∧ InMemory.store_after (InMemory.handle (PUT_capybaras_id i b) s)
      = before ++ {| id := n; name := body_name b |} :: after
    ∧ payload (InMemory.response (InMemory.handle (PUT_capybaras_id i b) s))
      = JsonCapybara {| id := n; name := body_name b |}.
Proof.
  intros Hput.
  destruct (put_200_inv i b s Hput)
    as (n & before & after & c & Hi & Hname & Hs & Hc & Hbefore & Hrun).
  exists n, before, after, c. rewrite Hrun. split_and!; auto.
  subst s. cbn.
  rewrite <- (Nat.add_0_r (List.length before)), alter_app_r. cbn.
  by rewrite Hc.
Qed.

Lemma put_renames_first_match_witness :
  status (InMemory.response
            (InMemory.handle (PUT_capybaras_id "3" (named "z")) store_2_3_3))
  = 200
  ∧ ∃ (n : Z) (before after : list Capybara) (c : Capybara),
      parseInt "3" = Some n
      ∧ js_not (body_name (named "z")) = false
      ∧ store_2_3_3 = before ++ c :: after
      ∧ id c = n
      ∧ Forall (λ x, id x ≠ n) before
      ∧ InMemory.store_after
          (InMemory.handle (PUT_capybaras_id "3" (named "z")) store_2_3_3)
        = before ++ {| id := n; name := body_name (named "z") |} :: after
      ∧ payload (InMemory.response
                   (InMemory.handle (PUT_capybaras_id "3" (named "z"))
                      store_2_3_3))
        = JsonCapybara {| id := n; name := body_name (named "z") |}.
Proof.
  split; [vm_compute; reflexivity|].
  apply (put_renames_exactly_the_first_match "3" (named "z") store_2_3_3).
  vm_compute. reflexivity.
Defined.

(** The first match of [before ++ c :: after] when nothing of [before]
    matches and [c] does. *)
Lemma list_find_middle (n : Z) (before after : list Capybara) (c : Capybara) :
  Forall (λ x, id x ≠ n) before → id c = n →
  list_find (InMemory.id_is (Some n)) (before ++ c :: after)
  = Some (List.length before, c).
Proof.
  intros Hbefore Hc. rewrite list_find_app_r.
  - cbn. by rewrite decide_True by (unfold InMemory.id_is; by rewrite Hc).
  - apply list_find_None. eapply Forall_impl; [exact Hbefore|].
    intros x Hx [= Heq]. by apply Hx.
Qed.

(** X6: when the in-memory [PUT /capybaras/:id] answers 200, a
    [GET /capybaras/:id] of the same path parameter right after it answers
    200 with the record that the [PUT] answered, which has the new name;
    this holds also when several records share the id. *)
Theorem put_then_get_returns_the_new_name
  (i : string) (b : Body) (s : list Capybara) :
  status (InMemory.response (InMemory.handle (PUT_capybaras_id i b) s)) = 200 →
  ∃ n : Z,
    parseInt i = Some n
    ∧ InMemory.response
        (InMemory.handle (GET_capybaras_id i)
           (InMemory.store_after (InMemory.handle (PUT_capybaras_id i b) s)))
      = {| status := 200;
           payload := JsonCapybara {| id := n; name := body_name b |} |}
    ∧ InMemory.response
        (InMemory.handle (GET_capybaras_id i)
           (InMemory.store_after (InMemory.handle (PUT_capybaras_id i b) s)))
      = InMemory.response (InMemory.handle (PUT_capybaras_id i b) s).
Proof.
  intros Hput.
  destruct (put_200_inv i b s Hput)
    as (n & before & after & c & Hi & Hname & Hs & Hc & Hbefore & Hrun).
  exists n. split; [exact Hi|]. rewrite Hrun. subst s. cbn.
  rewrite <- (Nat.add_0_r (List.length before)), alter_app_r. cbn.
  cbn [InMemory.handle]. rewrite get_capybaras_id_eq, Hi.
  rewrite (list_find_middle n before after
             {| id := id c; name := body_name b |} Hbefore Hc).
  by rewrite Hc.
Qed.

Lemma put_then_get_witness :
  status (InMemory.response
            (InMemory.handle (PUT_capybaras_id "3" (named "z")) store_2_3_3))
  = 200
  ∧ ∃ n : Z,
      parseInt "3" = Some n
      ∧ InMemory.response
          (InMemory.handle (GET_capybaras_id "3")
             (InMemory.store_after
                (InMemory.handle (PUT_capybaras_id "3" (named "z"))
                   store_2_3_3)))
        = {| status := 200;
             payload := JsonCapybara
                          {| id := n; name := body_name (named "z") |} |}
      ∧ InMemory.response
          (InMemory.handle (GET_capybaras_id "3")
             (InMemory.store_after
                (InMemory.handle (PUT_capybaras_id "3" (named "z"))
                   store_2_3_3)))
        = InMemory.response
            (InMemory.handle (PUT_capybaras_id "3" (named "z")) store_2_3_3).
Proof.
  split; [vm_compute; reflexivity|].
  apply (put_then_get_returns_the_new_name "3" (named "z") store_2_3_3).
  vm_compute. reflexivity.
Defined.

(** ** Looking a record up by id *)

Lemma list_find_None_id_absent (i : string) (s : list Capybara) :
  list_find (InMemory.id_is (parseInt i)) s = None ↔ id_absent i s.
Proof.
  split; [|apply id_absent_list_find].
  intros Hnone c Hc. apply list_find_None in Hnone.
  by apply (proj1 (Forall_forall _ _) Hnone c Hc).
Qed.

(** X7: the three in-memory routes on [/capybaras/:id] answer 404 exactly
    when no record of the array has the id that the path parameter parses
    to, whatever the body of a [PUT]. *)
Theorem by_id_404_iff_id_absent (req : Request) (i : string) (b : Body)
    (s : list Capybara) :
  req = GET_capybaras_id i ∨ req = PUT_capybaras_id i b
  ∨ req = DELETE_capybaras_id i →
  status (InMemory.response (InMemory.handle req s)) = 404 ↔ id_absent i s.
Proof.
  intros [-> | [-> | ->]]; cbn [InMemory.handle];
    rewrite <- list_find_None_id_absent.
  - rewrite get_capybaras_id_eq.
    by destruct (list_find _ s) as [[j c]|].
  - rewrite put_capybaras_id_eq.
    destruct (list_find _ s) as [[j c]|]; [|done].
    by destruct (js_not (body_name b)).
  - rewrite delete_capybaras_id_eq.
    by destruct (list_find _ s) as [[j c]|].
Qed.

Lemma by_id_404_witness :
  (DELETE_capybaras_id "2" = GET_capybaras_id "2"
   ∨ DELETE_capybaras_id "2" = PUT_capybaras_id "2" body_empty_object
   ∨ DELETE_capybaras_id "2" = DELETE_capybaras_id "2")
  ∧ (status (InMemory.response
               (InMemory.handle (DELETE_capybaras_id "2") store_fluffy)) = 404
     ↔ id_absent "2" store_fluffy).
Proof.
  assert (H : DELETE_capybaras_id "2" = GET_capybaras_id "2"
              ∨ DELETE_capybaras_id "2"
                = PUT_capybaras_id "2" body_empty_object
              ∨ DELETE_capybaras_id "2" = DELETE_capybaras_id "2")
    by (right; right; reflexivity).
  split; [exact H|].
  exact (by_id_404_iff_id_absent _ "2" body_empty_object store_fluffy H).
Defined.

(** X8: when the in-memory [GET /capybaras/:id] does not answer 404, it
    answers 200 with a record of the array whose id is the number that the
    path parameter parses to, and no record before it in the array has that
    id. *)
Theorem get_by_id_returns_the_first_match (i : string) (s : list Capybara) :
  status (InMemory.response (InMemory.handle (GET_capybaras_id i) s)) ≠ 404 →
  ∃ (k : nat) (c : Capybara),
    InMemory.response (InMemory.handle (GET_capybaras_id i) s)
    = {| status := 200; payload := JsonCapybara c |}
    ∧ s !! k = Some c
    ∧ parseInt i = Some (id c)
    ∧ ∀ (j : nat) (x : Capybara),
        s !! j = Some x → (j < k)%nat → parseInt i ≠ Some (id x).
Proof.
  cbn [InMemory.handle]. rewrite get_capybaras_id_eq.
  destruct (list_find _ s) as [[k c]|] eqn:Hfind; cbn; [intros _|done].
  apply list_find_Some in Hfind as (Hk & Hc & Hleast).
  exists k, c. split_and!; [done..|].
  intros j x Hj Hlt Heq. by apply (Hleast j x Hj Hlt).
Qed.

Lemma get_by_id_witness :
  status (InMemory.response
            (InMemory.handle (GET_capybaras_id "3") store_2_3_3)) ≠ 404
  ∧ ∃ (k : nat) (c : Capybara),
      InMemory.response (InMemory.handle (GET_capybaras_id "3") store_2_3_3)
      = {| status := 200; payload := JsonCapybara c |}
      ∧ store_2_3_3 !! k = Some c
      ∧ parseInt "3" = Some (id c)
      ∧ ∀ (j : nat) (x : Capybara),
          store_2_3_3 !! j = Some x → (j < k)%nat → parseInt "3" ≠ Some (id x).
Proof.
  assert (H : status (InMemory.response
                        (InMemory.handle (GET_capybaras_id "3") store_2_3_3))
              ≠ 404) by (vm_compute; discriminate).
  split; [exact H|].
  exact (get_by_id_returns_the_first_match "3" store_2_3_3 H).
Defined.

(** ** Names that are served *)

(** How a name that passed the test [!name] is written. *)
Lemma json_written_name (v : JsVal) :
  js_not v = false →
  json_written v ≠ WOmitted
  ∧ json_written v ≠ WValue (JStr "")
  ∧ (json_written v = WNull ↔ ∃ sign, v = JNum (S754_infinity sign)).
Proof.
  destruct v as [| |b|x|str|items|props]; cbn; try discriminate.
  - intros _. split_and!; [done..|]. split; [done|]. by intros [sign ?].
  - destruct x as [sign|sign| |sign m e]; cbn; try discriminate; intros _.
    + split_and!; [done..|]. split; [by exists sign|done].
    + split_and!; [done..|]. split; [done|]. by intros [sign' ?].
  - case_decide as Hstr; [discriminate|]. intros _.
    split_and!; [done|congruence|]. split; [done|]. by intros [sign ?].
  - intros _. split_and!; [done..|]. split; [done|]. by intros [sign ?].
  - intros _. split_and!; [done..|]. split; [done|]. by intros [sign ?].
Qed.

(** Every record handed to [res.json] in a session has a name that passed
    the test. *)
Lemma served_names_passed_the_test (s : list Capybara) (req : Request) :
  InMemory.reachable s →
  Forall (λ c, js_not (name c) = false)
    (served (payload (InMemory.response (InMemory.handle req s)))).
Proof.
  intros Hs. apply reachable_names in Hs.
  destruct req as [|i|b|i b|i]; cbn [InMemory.handle].
  - exact Hs.
  - rewrite get_capybaras_id_eq.
    destruct (list_find _ s) as [[k c]|] eqn:Hfind; cbn; [|constructor].
    apply list_find_Some in Hfind as (Hk & _ & _).
    repeat constructor. by eapply Forall_lookup_1 in Hs.
  - destruct (js_not (body_name b)) eqn:Hname.
    + rewrite post_capybaras_invalid by done. constructor.
    + rewrite post_capybaras_valid by done. by repeat constructor.
  - rewrite put_capybaras_id_eq.
    destruct (list_find _ s) as [[k c]|]; [|constructor].
    destruct (js_not (body_name b)) eqn:Hname; [constructor|].
    by repeat constructor.
  - rewrite delete_capybaras_id_eq.
    destruct (list_find _ s) as [[k c]|]; constructor.
Qed.

(** X9: in a session started on the empty array, the name of every record
    of every answer, in a list or alone, is written in the body: it is
    never left out and never the empty string.  It is written [null] in
    one case only, when the stored name is an infinite number (a name such
    as [1e999] passes the test [!name] and is stored as [Infinity]). *)
Theorem served_names_as_written (s : list Capybara) (req : Request) :
  InMemory.reachable s →
  Forall (λ c, json_written (name c) ≠ WOmitted
               ∧ json_written (name c) ≠ WValue (JStr "")
               ∧ (json_written (name c) = WNull
                  ↔ ∃ sign, name c = JNum (S754_infinity sign)))
    (served (payload (InMemory.response (InMemory.handle req s)))).
Proof.
  intros Hs. eapply Forall_impl; [by apply served_names_passed_the_test|].
  intros c Hc. by apply json_written_name.
Qed.

Lemma served_names_as_written_witness :
  InMemory.reachable
    (InMemory.serve
       [ POST_capybaras (named "a"); POST_capybaras body_infinite_name ] [])
  ∧ served (payload (InMemory.response
                       (InMemory.handle GET_capybaras
                          (InMemory.serve
                             [ POST_capybaras (named "a");
                               POST_capybaras body_infinite_name ] []))))
    = [ {| id := 1; name := JStr "a" |};
        {| id := 2; name := JNum (S754_infinity false) |} ]
  ∧ Forall (λ c, json_written (name c) ≠ WOmitted
                 ∧ json_written (name c) ≠ WValue (JStr "")
                 ∧ (json_written (name c) = WNull
                    ↔ ∃ sign, name c = JNum (S754_infinity sign)))
      (served (payload (InMemory.response
                          (InMemory.handle GET_capybaras
                             (InMemory.serve
                                [ POST_capybaras (named "a");
                                  POST_capybaras body_infinite_name ]
                                []))))).
Proof.
  assert (Hr : InMemory.reachable
                 (InMemory.serve
                    [ POST_capybaras (named "a");
                      POST_capybaras body_infinite_name ] []))
    by (apply reachable_serve; constructor).
  split; [exact Hr|]. split; [vm_compute; reflexivity|].
  exact (served_names_as_written _ GET_capybaras Hr).
Defined.

(** ** Creating in the in-memory variant *)

(** X10: when the in-memory [POST /capybaras] answers 201, the answer
    carries a record whose name is the name of the body and whose id is the
    length of the array plus one; the array afterwards is the array before
    with that record appended, and this is the list that [GET /capybaras]
    serves right after. *)
Theorem post_appends_the_record (b : Body) (s : list Capybara) :
  status (InMemory.response (InMemory.handle (POST_capybaras b) s)) = 201 →
  ∃ c : Capybara,
    InMemory.response (InMemory.handle (POST_capybaras b) s)
    = {| status := 201; payload := JsonCapybara c |}
    ∧ id c = Z.of_nat (List.length s) + 1
    ∧ name c = body_name b
    ∧ js_not (name c) = false
    ∧ InMemory.store_after (InMemory.handle (POST_capybaras b) s) = s ++ [c]
    ∧ InMemory.response
        (InMemory.handle GET_capybaras
           (InMemory.store_after (InMemory.handle (POST_capybaras b) s)))
      = {| status := 200; payload := JsonList (s ++ [c]) |}.
Proof.
  cbn [InMemory.handle].
  destruct (js_not (body_name b)) eqn:Hname.
  - rewrite post_capybaras_invalid by done. discriminate.
  - rewrite post_capybaras_valid by done. intros _.
    by exists {| id := Z.of_nat (List.length s) + 1; name := body_name b |}.
Qed.

Lemma post_appends_witness :
  status (InMemory.response
            (InMemory.handle (POST_capybaras (named "z")) store_2_3_3)) = 201
  ∧ ∃ c : Capybara,
      InMemory.response
        (InMemory.handle (POST_capybaras (named "z")) store_2_3_3)
      = {| status := 201; payload := JsonCapybara c |}
      ∧ id c = Z.of_nat (List.length store_2_3_3) + 1
      ∧ name c = body_name (named "z")
      ∧ js_not (name c) = false
      ∧ InMemory.store_after
          (InMemory.handle (POST_capybaras (named "z")) store_2_3_3)
        = store_2_3_3 ++ [c]
      ∧ InMemory.response
          (InMemory.handle GET_capybaras
             (InMemory.store_after
                (InMemory.handle (POST_capybaras (named "z")) store_2_3_3)))
        = {| status := 200; payload := JsonList (store_2_3_3 ++ [c]) |}.
Proof.
  split; [vm_compute; reflexivity|].
  apply (post_appends_the_record (named "z") store_2_3_3).
  vm_compute. reflexivity.
Defined.

(** * Further properties of the relational variant *)

Section RelationalRuns.
Context {Db : Type}.
Variable exec : Db → string → list Relational.Param
                → Relational.QueryResult * Db.
Implicit Types (db : Db) (req : Request).

(** Case analysis of a run: on the route, on the test of the name, on what
    the database answers and on whether it answers with a row. *)
Local Ltac run_cases req db :=
  destruct req as [|i|b|i b|i]; cbn [Relational.handle];
  unfold Relational.get_capybaras, Relational.get_capybaras_id,
    Relational.post_capybaras, Relational.put_capybaras_id,
    Relational.delete_capybaras_id;
  try (destruct (js_not (body_name b)) eqn:Hname);
  cbn [Relational.run];
  try (match goal with
       | |- context [exec db ?text ?params] =>
           destruct (exec db text params) as [[[|row rows]|m] db1] eqn:Hexec
       end);
  cbn.

(** X11: a relational handler sends at most one statement per request.  It
    sends none exactly when it answers 400, and then the database is left
    as it was. *)
Theorem relational_400_iff_no_statement db req :
  (List.length (Relational.run exec (Relational.handle req) db).2 ≤ 1)%nat
  ∧ ((Relational.run exec (Relational.handle req) db).2 = []
     ↔ status (Relational.run exec (Relational.handle req) db).1.1 = 400)
  ∧ ((Relational.run exec (Relational.handle req) db).2 = []
     → (Relational.run exec (Relational.handle req) db).1.2 = db).
Proof.
  run_cases req db; split_and!; try lia; try done.
Qed.

(** X12: a relational handler answers 500 exactly when the statement it
    sent was rejected, and the body of the answer is then the message of
    the error, unchanged. *)
Theorem relational_500_iff_rejected db req :
  status (Relational.run exec (Relational.handle req) db).1.1 = 500
  ↔ ∃ text params m,
      (Relational.run exec (Relational.handle req) db).2 = [(text, params)]
      ∧ (exec db text params).1 = Relational.Rejected m
      ∧ payload (Relational.run exec (Relational.handle req) db).1.1
        = JsonError m.
Proof.
  run_cases req db;
    (split;
     [ try discriminate; intros _; do 3 eexists;
       (split; [reflexivity|]); rewrite Hexec; by split
     | intros (text & params & m' & Hsent & Hrej & Hpay);
       try discriminate Hsent;
       injection Hsent as <- <-; rewrite Hexec in Hrej;
       try discriminate Hrej; reflexivity ]).
Qed.

(** X13: the three relational routes on [/capybaras/:id] never look at the
    id themselves: whatever the path parameter, they send their statement
    with the number (or [NaN]) that [parseInt] made of it as last parameter
    (a [PUT] only after the test of the name), and they answer 404 exactly
    when the statement resolves with no row. *)
Theorem relational_by_id_404_iff_no_row db req (i : string) (b : Body) :
  req = GET_capybaras_id i ∨ req = DELETE_capybaras_id i
  ∨ (req = PUT_capybaras_id i b ∧ js_not (body_name b) = false) →
  (∃ text params,
     (Relational.run exec (Relational.handle req) db).2
     = [(text, params ++ [Relational.PNumber (parseInt i)])])
  ∧ (status (Relational.run exec (Relational.handle req) db).1.1 = 404
     ↔ ∃ text params db1,
         (Relational.run exec (Relational.handle req) db).2 = [(text, params)]
         ∧ exec db text params = (Relational.Resolved [], db1)).
Proof.
  intros [-> | [-> | [-> Hname]]]; cbn [Relational.handle];
    unfold Relational.get_capybaras_id, Relational.delete_capybaras_id,
      Relational.put_capybaras_id;
    try rewrite Hname; cbn [Relational.run];
    match goal with
    | |- context [exec db ?text ?params] =>
        destruct (exec db text params) as [[[|row rows]|m] db1] eqn:Hexec
    end; cbn;
    (split;
     [ first [ by eexists _, []
             | by eexists _, [Relational.PVal (body_name b)] ]
     | split;
       [ try discriminate; intros _; do 3 eexists;
         (split; [reflexivity|]); exact Hexec
       | intros (text & params & db2 & Hsent & Hres);
         injection Hsent as <- <-; rewrite Hexec in Hres;
         try discriminate Hres; reflexivity ] ]).
Qed.
End RelationalRuns.

Lemma relational_by_id_404_witness :
  (PUT_capybaras_id "7" (named "Chonky") = GET_capybaras_id "7"
   ∨ PUT_capybaras_id "7" (named "Chonky") = DELETE_capybaras_id "7"
   ∨ (PUT_capybaras_id "7" (named "Chonky")
      = PUT_capybaras_id "7" (named "Chonky")
      ∧ js_not (body_name (named "Chonky")) = false))
  ∧ (status (Relational.run exec_no_match
               (Relational.handle (PUT_capybaras_id "7" (named "Chonky")))
               tt).1.1 = 404
     ↔ ∃ text params db1,
         (Relational.run exec_no_match
            (Relational.handle (PUT_capybaras_id "7" (named "Chonky"))) tt).2
         = [(text, params)]
         ∧ exec_no_match tt text params = (Relational.Resolved [], db1)).
Proof.
  assert (H : PUT_capybaras_id "7" (named "Chonky") = GET_capybaras_id "7"
              ∨ PUT_capybaras_id "7" (named "Chonky")
                = DELETE_capybaras_id "7"
              ∨ (PUT_capybaras_id "7" (named "Chonky")
                 = PUT_capybaras_id "7" (named "Chonky")
                 ∧ js_not (body_name (named "Chonky")) = false))
    by (right; right; split; [reflexivity | vm_compute; reflexivity]).
  split; [exact H|].
  exact (proj2 (relational_by_id_404_iff_no_row exec_no_match tt _ "7"
                  (named "Chonky") H)).
Defined.

(** * Properties of the configuration and of the migration script *)

(** X14: under the same environment, the pool of the service and the client
    of [migrate] are configured alike, and this is also the configuration
    that [getDbConfig] gives when called without argument; the client of
    [createdb] differs from them in the database only, which is
    [postgres]. *)
Theorem service_and_migration_share_the_configuration
  (env : gmap string string) :
  pool_config env = Migrate.getDbConfig env (Some "capybaradb"%string)
  ∧ Migrate.getDbConfig env None
    = Migrate.getDbConfig env (Some "capybaradb"%string)
  ∧ Migrate.getDbConfig env (Some "postgres"%string)
    = {| Migrate.host := Migrate.host (pool_config env);
         Migrate.user := Migrate.user (pool_config env);
         Migrate.password := Migrate.password (pool_config env);
         Migrate.database := "postgres";
         Migrate.port := Migrate.port (pool_config env) |}.
Proof. split_and!; reflexivity. Qed.

(** X15: when each of the four variables is unset or set to the empty
    string, the configuration is the default one: host [localhost], user and
    password [postgres], port 5432, and the database asked for
    ([capybaradb] when none is). *)
Theorem unset_or_empty_variables_give_the_defaults
  (env : gmap string string) (database : option string) :
  (∀ key v, key ∈ [ "POSTGRES_SERVICE_HOST"%string; "POSTGRES_USER"%string;
                    "POSTGRES_PASSWORD"%string; "POSTGRES_PORT"%string ] →
            env !! key = Some v → v = ""%string) →
  Migrate.getDbConfig env database
  = {| Migrate.host := "localhost"; Migrate.user := "postgres";
       Migrate.password := "postgres";
       Migrate.database := default "capybaradb"%string database;
       Migrate.port := Some 5432 |}.
Proof.
  intros Henv.
  assert (Hor : ∀ key fallback,
            key ∈ [ "POSTGRES_SERVICE_HOST"%string; "POSTGRES_USER"%string;
                    "POSTGRES_PASSWORD"%string; "POSTGRES_PORT"%string ] →
            Migrate.env_or env key fallback = fallback).
  { intros key fallback Hkey. unfold Migrate.env_or.
    destruct (env !! key) as [v|] eqn:Hv; [|reflexivity].
    by rewrite (Henv key v Hkey Hv). }
  unfold Migrate.getDbConfig.
  rewrite !Hor by set_solver.
  f_equal. unfold Migrate.env_port.
  destruct (env !! "POSTGRES_PORT"%string) as [v|] eqn:Hv; [|reflexivity].
  rewrite (Henv "POSTGRES_PORT"%string v) by (done || set_solver).
  reflexivity.
Qed.

Lemma unset_or_empty_variables_witness :
  (∀ key v, key ∈ [ "POSTGRES_SERVICE_HOST"%string; "POSTGRES_USER"%string;
                    "POSTGRES_PASSWORD"%string; "POSTGRES_PORT"%string ] →
            ({[ "POSTGRES_PORT"%string := ""%string ]} : gmap string string)
              !! key = Some v → v = ""%string)
  ∧ Migrate.getDbConfig {[ "POSTGRES_PORT"%string := ""%string ]} None
    = {| Migrate.host := "localhost"; Migrate.user := "postgres";
         Migrate.password := "postgres"; Migrate.database := "capybaradb";
         Migrate.port := Some 5432 |}.
Proof.
  assert (H : ∀ key v,
            key ∈ [ "POSTGRES_SERVICE_HOST"%string; "POSTGRES_USER"%string;
                    "POSTGRES_PASSWORD"%string; "POSTGRES_PORT"%string ] →
            ({[ "POSTGRES_PORT"%string := ""%string ]} : gmap string string)
              !! key = Some v → v = ""%string).
  { intros key v _ Hv. apply lookup_singleton_Some in Hv as [_ <-].
    reflexivity. }
  split; [exact H|].
  exact (unset_or_empty_variables_give_the_defaults _ None H).
Defined.

(** X16: a [POSTGRES_PORT] that is set, not empty, and of which [parseInt]
    makes [NaN] gives the port [NaN], in the pool of the service and in the
    clients of the script alike: the default 5432 is not used for it. *)
Theorem port_that_is_not_a_number_is_NaN
  (env : gmap string string) (v : string) (database : option string) :
  env !! "POSTGRES_PORT"%string = Some v → v ≠ ""%string →
  parseInt v = None →
  Migrate.port (pool_config env) = None
  ∧ Migrate.port (Migrate.getDbConfig env database) = None.
Proof.
  intros Hv Hne Hnan. cbn. unfold Migrate.env_port.
  rewrite Hv, decide_False by done. by split.
Qed.

Lemma port_that_is_not_a_number_witness :
  ({[ "POSTGRES_PORT"%string := "tcp://10.0.0.1:5432"%string ]}
     : gmap string string) !! "POSTGRES_PORT"%string
  = Some "tcp://10.0.0.1:5432"%string
  ∧ "tcp://10.0.0.1:5432"%string ≠ ""%string
  ∧ parseInt "tcp://10.0.0.1:5432" = None
  ∧ Migrate.port
      (pool_config {[ "POSTGRES_PORT"%string := "tcp://10.0.0.1:5432"%string ]})
    = None.
Proof.
  assert (H1 : ({[ "POSTGRES_PORT"%string := "tcp://10.0.0.1:5432"%string ]}
                  : gmap string string) !! "POSTGRES_PORT"%string
               = Some "tcp://10.0.0.1:5432"%string)
    by apply lookup_singleton_eq.
  assert (H2 : "tcp://10.0.0.1:5432"%string ≠ ""%string) by discriminate.
  assert (H3 : parseInt "tcp://10.0.0.1:5432" = None) by reflexivity.
  split; [exact H1|]. split; [exact H2|]. split; [exact H3|].
  exact (proj1 (port_that_is_not_a_number_is_NaN _ _ None H1 H2 H3)).
Defined.

(** ** Runs of the migration script *)

Section MigrateRuns.
Context {W : Type}.
Variable world : W → Migrate.Op → Migrate.Outcome * W.
Implicit Types (w : W) (env : gmap string string).

(** Follow a run of [main] call by call, splitting on each outcome. *)
Local Ltac follow_main :=
  unfold Migrate.main, Migrate.createdb, Migrate.migrate, mbind,
    Migrate.Proc_bind, mret, Migrate.Proc_ret, Migrate.call,
    Migrate.console_log, Migrate.console_error, Migrate.process_exit;
  cbn;
  repeat match goal with
         | |- context [world ?w ?op] =>
             let v := fresh "v" in
             let e := fresh "e" in
             let w' := fresh "w" in
             destruct (world w op) as [[v|e] w']; cbn
         end.

(** Split a membership in an explicit list of calls into its cases. *)
Local Ltac split_membership H :=
  repeat (apply elem_of_cons in H as [H|H]);
  try (by apply elem_of_nil in H);
  unfold Migrate.getDbConfig in H; simplify_eq.

(** X17: [main] sends a statement to the database [capybaradb] only after
    [createdb] went through (connection to [postgres], [CREATE DATABASE]
    and the closing of that client all succeeded), and the statement it
    sends is the content read from [capybara.sql]. *)
Theorem migration_runs_only_after_the_database_is_created
  w env (sql : string) (o : Migrate.Outcome) :
  (Migrate.Query (Migrate.getDbConfig env (Some "capybaradb"%string)) sql, o)
  ∈ (Migrate.run world (Migrate.main env) w).2 →
  ∃ (v1 v2 v4 v5 : string) (o3 : Migrate.Outcome)
    (rest : list (Migrate.Op * Migrate.Outcome)),
    (Migrate.run world (Migrate.main env) w).2
    = [ (Migrate.Connect (Migrate.getDbConfig env (Some "postgres"%string)),
         Migrate.Fulfilled v1);
        (Migrate.Query (Migrate.getDbConfig env (Some "postgres"%string))
           "CREATE DATABASE capybaradb WITH ENCODING 'UTF8' TEMPLATE template0",
         Migrate.Fulfilled v2);
        (Migrate.ConsoleLog "Database capybaradb created successfully.", o3);
        (Migrate.End_ (Migrate.getDbConfig env (Some "postgres"%string)),
         Migrate.Fulfilled v4);
        (Migrate.Connect (Migrate.getDbConfig env (Some "capybaradb"%string)),
         Migrate.Fulfilled v5);
        (Migrate.ReadFileSync "capybara.sql" "utf8", Migrate.Fulfilled sql);
        (Migrate.Query (Migrate.getDbConfig env (Some "capybaradb"%string))
           sql, o) ] ++ rest.
Proof.
  follow_main; intros H; split_membership H;
    by do 6 eexists.
Qed.

(** X18: when a run of [main] ends by [process.exit], the exit code is 1,
    and the last two calls of the run are a connection, a statement or the
    file read that failed, and the [console.error] that reports its error:
    nothing is done after a failure, not even the closing of the client. *)
Theorem exit_follows_a_reported_failure w env (code : Z) :
  (Migrate.run world (Migrate.main env) w).1 = Migrate.Exited code →
  code = 1
  ∧ ∃ (calls : list (Migrate.Op * Migrate.Outcome)) (op : Migrate.Op)
      (err message : string) (o : Migrate.Outcome),
      (Migrate.run world (Migrate.main env) w).2
      = calls ++ [ (op, Migrate.Failed err);
                   (Migrate.ConsoleError message err, o) ]
      ∧ in_try_block op = true
      ∧ Forall (λ call, ∀ err', call.2 = Migrate.Failed err' →
                                in_try_block call.1 = false) calls.
Proof.
  follow_main; intros [= <-]; (split; [reflexivity|]);
    first
      [ by eexists [], _, _, _, _; split_and!;
           [reflexivity | reflexivity | repeat constructor]
      | by eexists [_], _, _, _, _; split_and!;
           [reflexivity | reflexivity | repeat constructor]
      | by eexists [_; _; _; _], _, _, _, _; split_and!;
           [reflexivity | reflexivity | repeat constructor]
      | by eexists [_; _; _; _; _], _, _, _, _; split_and!;
           [reflexivity | reflexivity | repeat constructor]
      | by eexists [_; _; _; _; _; _], _, _, _, _; split_and!;
           [reflexivity | reflexivity | repeat constructor] ].
Qed.
(** X19: when a connection or a statement of the script fails, the run
    ends by [process.exit(1)], the failed call is followed by the
    [console.error] that reports its error and by nothing else, and [end]
    is never called on the client on which it failed. *)
Theorem a_failure_ends_the_process_and_leaves_the_client_open
  w env (op : Migrate.Op) (client : Migrate.DbConfig) (err : string) :
  (op = Migrate.Connect client ∨ ∃ sql, op = Migrate.Query client sql) →
  (op, Migrate.Failed err) ∈ (Migrate.run world (Migrate.main env) w).2 →
  (Migrate.run world (Migrate.main env) w).1 = Migrate.Exited 1
  ∧ (∃ (calls : list (Migrate.Op * Migrate.Outcome)) (message : string)
       (o : Migrate.Outcome),
       (Migrate.run world (Migrate.main env) w).2
       = calls ++ [ (op, Migrate.Failed err);
                    (Migrate.ConsoleError message err, o) ])
  ∧ ∀ o', (Migrate.End_ client, o')
          ∉ (Migrate.run world (Migrate.main env) w).2.
Proof.
  intros Hop.
  follow_main; intros H;
    (destruct Hop as [-> | [sql ->]]; split_membership H);
    (split_and!;
     [ reflexivity
     | first [ by eexists [], _, _ | by eexists [_], _, _
             | by eexists [_; _; _; _], _, _
             | by eexists [_; _; _; _; _; _], _, _ ]
     | intros o' Hend; split_membership Hend ]).
Qed.

(** X20: when [main] returns, the run consisted of these nine calls, in
    this order, and each connection, statement, file read and closing
    succeeded: connection to [postgres], [CREATE DATABASE], a log, closing
    of that client, connection to [capybaradb], read of [capybara.sql], its
    content sent as a statement, a log, closing of that client. *)
Theorem completed_run_is_the_nine_calls w env :
  (Migrate.run world (Migrate.main env) w).1 = Migrate.Completed →
  ∃ (v1 v2 v4 v5 sql v7 v9 : string) (o3 o8 : Migrate.Outcome),
    (Migrate.run world (Migrate.main env) w).2
    = [ (Migrate.Connect (Migrate.getDbConfig env (Some "postgres"%string)),
         Migrate.Fulfilled v1);
        (Migrate.Query (Migrate.getDbConfig env (Some "postgres"%string))
           "CREATE DATABASE capybaradb WITH ENCODING 'UTF8' TEMPLATE template0",
         Migrate.Fulfilled v2);
        (Migrate.ConsoleLog "Database capybaradb created successfully.", o3);
        (Migrate.End_ (Migrate.getDbConfig env (Some "postgres"%string)),
         Migrate.Fulfilled v4);
        (Migrate.Connect (Migrate.getDbConfig env (Some "capybaradb"%string)),
         Migrate.Fulfilled v5);
        (Migrate.ReadFileSync "capybara.sql" "utf8", Migrate.Fulfilled sql);
        (Migrate.Query (Migrate.getDbConfig env (Some "capybaradb"%string))
           sql, Migrate.Fulfilled v7);
        (Migrate.ConsoleLog "Migration completed successfully.", o8);
        (Migrate.End_ (Migrate.getDbConfig env (Some "capybaradb"%string)),
         Migrate.Fulfilled v9) ].
Proof.
  follow_main; intros [=]; by do 9 eexists.
Qed.

(** X21: the promise of [main] is rejected only when the closing of a
    client fails: the failed [end] is then the last call of the run, its
    error is the reason of the rejection, and every call before it
    succeeded. *)
Theorem rejection_comes_from_a_failed_end w env (err : string) :
  (Migrate.run world (Migrate.main env) w).1 = Migrate.Rejected err →
  ∃ (calls : list (Migrate.Op * Migrate.Outcome))
    (client : Migrate.DbConfig),
    (Migrate.run world (Migrate.main env) w).2
    = calls ++ [ (Migrate.End_ client, Migrate.Failed err) ]
    ∧ Forall (λ call, ∀ err', call.2 = Migrate.Failed err' →
                              in_try_block call.1 = false) calls.
Proof.
  follow_main; intros [= <-];
    first
      [ by eexists [_; _; _], _; split; [reflexivity | repeat constructor]
      | by eexists [_; _; _; _; _; _; _; _], _;
           split; [reflexivity | repeat constructor] ].
Qed.
End MigrateRuns.

Lemma migration_after_creation_witness :
  (Migrate.Query (Migrate.getDbConfig ∅ (Some "capybaradb"%string))
     "CREATE TABLE capybara (id SERIAL PRIMARY KEY, name TEXT NOT NULL)",
   Migrate.Fulfilled "")
  ∈ (Migrate.run
       (world_all_ok
          "CREATE TABLE capybara (id SERIAL PRIMARY KEY, name TEXT NOT NULL)")
       (Migrate.main ∅) tt).2
  ∧ ∃ (v1 v2 v4 v5 : string) (o3 : Migrate.Outcome)
      (rest : list (Migrate.Op * Migrate.Outcome)),
      (Migrate.run
         (world_all_ok
            "CREATE TABLE capybara (id SERIAL PRIMARY KEY, name TEXT NOT NULL)")
         (Migrate.main ∅) tt).2
      = [ (Migrate.Connect (Migrate.getDbConfig ∅ (Some "postgres"%string)),
           Migrate.Fulfilled v1);
          (Migrate.Query (Migrate.getDbConfig ∅ (Some "postgres"%string))
             "CREATE DATABASE capybaradb WITH ENCODING 'UTF8' TEMPLATE template0",
           Migrate.Fulfilled v2);
          (Migrate.ConsoleLog "Database capybaradb created successfully.",
           o3);
          (Migrate.End_ (Migrate.getDbConfig ∅ (Some "postgres"%string)),
           Migrate.Fulfilled v4);
          (Migrate.Connect
             (Migrate.getDbConfig ∅ (Some "capybaradb"%string)),
           Migrate.Fulfilled v5);
          (Migrate.ReadFileSync "capybara.sql" "utf8",
           Migrate.Fulfilled
             "CREATE TABLE capybara (id SERIAL PRIMARY KEY, name TEXT NOT NULL)");
          (Migrate.Query (Migrate.getDbConfig ∅ (Some "capybaradb"%string))
             "CREATE TABLE capybara (id SERIAL PRIMARY KEY, name TEXT NOT NULL)",
           Migrate.Fulfilled "") ] ++ rest.
Proof.
  assert (H : (Migrate.Query
                 (Migrate.getDbConfig ∅ (Some "capybaradb"%string))
                 "CREATE TABLE capybara (id SERIAL PRIMARY KEY, name TEXT NOT NULL)",
               Migrate.Fulfilled "")
              ∈ (Migrate.run
                   (world_all_ok
                      "CREATE TABLE capybara (id SERIAL PRIMARY KEY, name TEXT NOT NULL)")
                   (Migrate.main ∅) tt).2).
  { cbn. do 6 apply list_elem_of_further. apply list_elem_of_here. }
  split; [exact H|].
  exact (migration_runs_only_after_the_database_is_created _ _ _ _ _ H).
Defined.

Lemma exit_follows_failure_witness :
  (Migrate.run world_database_exists (Migrate.main ∅) tt).1
  = Migrate.Exited 1
  ∧ 1 = 1
  ∧ ∃ (calls : list (Migrate.Op * Migrate.Outcome)) (op : Migrate.Op)
      (err message : string) (o : Migrate.Outcome),
      (Migrate.run world_database_exists (Migrate.main ∅) tt).2
      = calls ++ [ (op, Migrate.Failed err);
                   (Migrate.ConsoleError message err, o) ]
      ∧ in_try_block op = true
      ∧ Forall (λ call, ∀ err', call.2 = Migrate.Failed err' →
                                in_try_block call.1 = false) calls.
Proof.
  assert (H : (Migrate.run world_database_exists (Migrate.main ∅) tt).1
              = Migrate.Exited 1) by reflexivity.
  split; [exact H|].
  exact (exit_follows_a_reported_failure world_database_exists tt ∅ 1 H).
Defined.

Lemma failure_ends_the_process_witness :
  (Migrate.Query (Migrate.getDbConfig ∅ (Some "postgres"%string))
     "CREATE DATABASE capybaradb WITH ENCODING 'UTF8' TEMPLATE template0"
   = Migrate.Connect (Migrate.getDbConfig ∅ (Some "postgres"%string))
   ∨ ∃ sql,
       Migrate.Query (Migrate.getDbConfig ∅ (Some "postgres"%string))
         "CREATE DATABASE capybaradb WITH ENCODING 'UTF8' TEMPLATE template0"
       = Migrate.Query (Migrate.getDbConfig ∅ (Some "postgres"%string)) sql)
  ∧ (Migrate.Query (Migrate.getDbConfig ∅ (Some "postgres"%string))
       "CREATE DATABASE capybaradb WITH ENCODING 'UTF8' TEMPLATE template0",
     Migrate.Failed "database capybaradb already exists")
    ∈ (Migrate.run world_database_exists (Migrate.main ∅) tt).2
  ∧ (Migrate.run world_database_exists (Migrate.main ∅) tt).1
    = Migrate.Exited 1.
Proof.
  assert (H1 : Migrate.Query (Migrate.getDbConfig ∅ (Some "postgres"%string))
                 "CREATE DATABASE capybaradb WITH ENCODING 'UTF8' TEMPLATE template0"
               = Migrate.Connect
                   (Migrate.getDbConfig ∅ (Some "postgres"%string))
               ∨ ∃ sql,
                   Migrate.Query
                     (Migrate.getDbConfig ∅ (Some "postgres"%string))
                     "CREATE DATABASE capybaradb WITH ENCODING 'UTF8' TEMPLATE template0"
                   = Migrate.Query
                       (Migrate.getDbConfig ∅ (Some "postgres"%string)) sql)
    by (right; eexists; reflexivity).
  assert (H2 : (Migrate.Query
                  (Migrate.getDbConfig ∅ (Some "postgres"%string))
                  "CREATE DATABASE capybaradb WITH ENCODING 'UTF8' TEMPLATE template0",
                Migrate.Failed "database capybaradb already exists")
               ∈ (Migrate.run world_database_exists (Migrate.main ∅) tt).2).
  { cbn. apply list_elem_of_further, list_elem_of_here. }
  split; [exact H1|]. split; [exact H2|].
  exact (proj1 (a_failure_ends_the_process_and_leaves_the_client_open
                  world_database_exists tt ∅ _ _ _ H1 H2)).
Defined.

Lemma completed_run_witness :
  (Migrate.run (world_all_ok "SELECT 1") (Migrate.main ∅) tt).1
  = Migrate.Completed
  ∧ List.length
      (Migrate.run (world_all_ok "SELECT 1") (Migrate.main ∅) tt).2 = 9%nat.
Proof.
  assert (H : (Migrate.run (world_all_ok "SELECT 1") (Migrate.main ∅) tt).1
              = Migrate.Completed) by reflexivity.
  split; [exact H|].
  destruct (completed_run_is_the_nine_calls (world_all_ok "SELECT 1") tt ∅ H)
    as (v1 & v2 & v4 & v5 & sql & v7 & v9 & o3 & o8 & ->).
  reflexivity.
Defined.

Lemma rejection_from_failed_end_witness :
  (Migrate.run world_end_fails (Migrate.main ∅) tt).1
  = Migrate.Rejected "connection terminated"
  ∧ ∃ (calls : list (Migrate.Op * Migrate.Outcome))
      (client : Migrate.DbConfig),
      (Migrate.run world_end_fails (Migrate.main ∅) tt).2
      = calls ++ [ (Migrate.End_ client,
                    Migrate.Failed "connection terminated") ]
      ∧ Forall (λ call, ∀ err', call.2 = Migrate.Failed err' →
                                in_try_block call.1 = false) calls.
Proof.
  assert (H : (Migrate.run world_end_fails (Migrate.main ∅) tt).1
              = Migrate.Rejected "connection terminated") by reflexivity.
  split; [exact H|].
  exact (rejection_comes_from_a_failed_end world_end_fails tt ∅ _ H).
Defined.

(** * Path parameters with something after the number *)

Lemma parse_digits_stops (rest : string) (acc : option Z) :
  starts_with_decimal_digit rest = false → parse_digits 10 rest acc = acc.
Proof.
  destruct rest as [|c rest]; [reflexivity|]. cbn.
  unfold is_decimal_digit, digit_value.
  set (n := Z.of_N (N_of_ascii c)).
  destruct (Z.leb_spec 48 n), (Z.leb_spec n 57), (Z.leb_spec 97 n),
    (Z.leb_spec n 122), (Z.leb_spec 65 n), (Z.leb_spec n 90);
    cbn; intros Hc; try discriminate Hc; try reflexivity;
    match goal with
    | |- context [?x <? 10] => destruct (Z.ltb_spec x 10)
    end; (reflexivity || lia).
Qed.

Lemma parse_digits_decimal_app (ds rest : string) (acc : option Z) :
  all_decimal_digits ds = true → starts_with_decimal_digit rest = false →
  parse_digits 10 (ds +:+ rest) acc = parse_digits 10 ds acc.
Proof.
  intros Hds Hrest. revert acc.
  induction ds as [|c ds IH]; intros acc.
  - by apply parse_digits_stops.
  - cbn in Hds. apply andb_true_iff in Hds as [Hc Hds].
    change (parse_digits 10 (String c (ds +:+ rest)) acc
            = parse_digits 10 (String c ds) acc).
    cbn [parse_digits].
    destruct (digit_value c) as [d|]; [|reflexivity].
    destruct (d <? 10); [|reflexivity]. by apply IH.
Qed.

(** [parseInt] on a string that begins with a digit from 1 to 9: no white
    space, no sign and no [0x] prefix to skip. *)
Lemma parseInt_nonzero_digit_head (c : ascii) (s : string) :
  is_decimal_digit c = true → c ≠ "0"%char →
  parseInt (String c s)
  = match parse_digits 10 (String c s) None with
    | Some m => Some (1 * m)
    | None => None
    end.
Proof.
  intros Hc Hne.
  destruct c as [[] [] [] [] [] [] [] []];
    try (vm_compute in Hc; discriminate Hc);
    try (exfalso; apply Hne; reflexivity);
    reflexivity.
Qed.

(** X22: what follows the number in a path parameter is ignored.  When the
    parameter is a decimal number without leading zero followed by anything
    that does not begin with a digit ([12abc], [12.5], [12 ]), [parseInt]
    gives the same as for the number alone, and the three in-memory routes
    on [/capybaras/:id] answer and act as for the number alone. *)
Theorem text_after_the_number_is_ignored
  (c : ascii) (ds rest : string) (b : Body) (s : list Capybara) :
  is_decimal_digit c = true → c ≠ "0"%char →
  all_decimal_digits ds = true →
  starts_with_decimal_digit rest = false →
  parseInt (String c ds +:+ rest) = parseInt (String c ds)
  ∧ InMemory.handle (GET_capybaras_id (String c ds +:+ rest)) s
    = InMemory.handle (GET_capybaras_id (String c ds)) s
  ∧ InMemory.handle (PUT_capybaras_id (String c ds +:+ rest) b) s
    = InMemory.handle (PUT_capybaras_id (String c ds) b) s
  ∧ InMemory.handle (DELETE_capybaras_id (String c ds +:+ rest)) s
    = InMemory.handle (DELETE_capybaras_id (String c ds)) s.
Proof.
  intros Hc Hne Hds Hrest.
  assert (Hparse : parseInt (String c ds +:+ rest) = parseInt (String c ds)).
  { change (String c ds +:+ rest) with (String c (ds +:+ rest)).
    rewrite !parseInt_nonzero_digit_head by done.
    change (String c (ds +:+ rest)) with (String c ds +:+ rest).
    rewrite parse_digits_decimal_app; [reflexivity| |exact Hrest].
    cbn. by rewrite Hc, Hds. }
  split; [exact Hparse|]. cbn [InMemory.handle].
  rewrite !get_capybaras_id_eq, !put_capybaras_id_eq,
    !delete_capybaras_id_eq, Hparse.
  by split_and!.
Qed.

Lemma text_after_the_number_witness :
  is_decimal_digit "1" = true ∧ "1"%char ≠ "0"%char
  ∧ all_decimal_digits "2" = true
  ∧ starts_with_decimal_digit ".5" = false
  ∧ parseInt "12.5" = parseInt "12"
  ∧ InMemory.handle (GET_capybaras_id "12.5") store_fluffy
    = InMemory.handle (GET_capybaras_id "12") store_fluffy.
Proof.
  assert (H1 : is_decimal_digit "1" = true) by reflexivity.
  assert (H2 : "1"%char ≠ "0"%char) by discriminate.
  assert (H3 : all_decimal_digits "2" = true) by reflexivity.
  assert (H4 : starts_with_decimal_digit ".5" = false) by reflexivity.
  split; [exact H1|]. split; [exact H2|]. split; [exact H3|].
  split; [exact H4|].
  destruct (text_after_the_number_is_ignored "1" "2" ".5" body_empty_object
              store_fluffy H1 H2 H3 H4) as (Hp & Hg & _).
  split; [exact Hp | exact Hg].
Defined.
